(** * Process exporter: the update pass and the reporter of [main.go]

    A shallow embedding of [updateMetrics], [getPID] and [printMetrics].
    The three Prometheus gauge vectors and the [lastUpdate] map are finite
    maps keyed by the process name; what the operating system answers
    (process table, per-process readings, clock) is an explicit argument of
    every loop iteration; standard output is the list of lines printed so
    far. *)

From Stdlib Require Import ZArith String List.
From Stdlib Require Import Floats.SpecFloat.
From stdpp Require Import gmap strings list fin_maps.

Open Scope Z_scope.

(** ** Go base types *)

(** Go's [error], reduced to the text [%s] prints for it. *)
Definition error : Type := string.

(** A Go result pair [(T, error)], read the way the program reads it: the
    value is used only when the error is [nil]. *)
Inductive result (A : Type) : Type :=
| Ok (a : A)
| Err (e : error).
Arguments Ok {A} a.
Arguments Err {A} e.

(** [float64] and [float32] values are IEEE-754 binary floats; both are
    carried by [spec_float] (sign, mantissa, exponent; one NaN). *)
Abbreviation float64 := spec_float (only parsing).
Abbreviation float32 := spec_float (only parsing).

(** [float64(0)]: the constant positive zero. *)
Definition float64_zero : float64 := S754_zero false.

(** [float64(pid)] for an [int]: rounding to nearest even at 53 bits. *)
Definition float64_of_int (z : Z) : float64 := binary_normalize 53 1024 z 0 false.

(** [float64(memoryPercent)] for a [float32]: every binary32 value is a
    binary64 value, the conversion keeps it. *)
Definition float64_of_float32 (x : float32) : float64 := x.

(** [int32(pid)] for an [int]: two's complement truncation to 32 bits. *)
Definition int32 (z : Z) : Z := (z + 2 ^ 31) mod 2 ^ 32 - 2 ^ 31.

(** [int(p.Pid)] for an [int32]: sign extension, the value is kept. *)
Definition int_of_int32 (z : Z) : Z := z.

(** The line feed that ends every printed line. *)
Definition nl : string := String (Ascii.ascii_of_nat 10) EmptyString.

(** ** package time *)
Module time.

(** A [time.Time] is its monotonic reading in nanoseconds; a
    [time.Duration] is an [int64] count of nanoseconds. *)
Definition Time : Type := Z.
Definition Duration : Type := Z.

Definition maxDuration : Duration := 2 ^ 63 - 1.
Definition minDuration : Duration := - 2 ^ 63.

Definition Second : Duration := 1000000000.

(** [t.Sub(u)]: the difference, saturated to the range of [Duration]. *)
Definition Sub (t u : Time) : Duration :=
  let d := t - u in
  if d <? minDuration then minDuration
  else if maxDuration <? d then maxDuration
  else d.

End time.

(** ** package unicode/utf8 *)
Module utf8.

(** Whether the byte [c] lies in [lo..hi]. *)
Definition inRange (lo hi : N) (c : Ascii.ascii) : bool :=
  let b := Ascii.N_of_ascii c in ((lo <=? b) && (b <=? hi))%N.

(** For a leading byte of a multi-byte sequence: how many continuation
    bytes follow and the range of the first of them (the others lie in
    [0x80..0xBF]); [None] for a byte that cannot lead. Overlong forms,
    surrogates and code points above U+10FFFF are excluded. *)
Definition first (b : N) : option (nat * N * N) :=
  (if (194 <=? b) && (b <=? 223) then Some (1%nat, 128, 191)
   else if b =? 224 then Some (2%nat, 160, 191)
   else if (225 <=? b) && (b <=? 236) then Some (2%nat, 128, 191)
   else if b =? 237 then Some (2%nat, 128, 159)
   else if (238 <=? b) && (b <=? 239) then Some (2%nat, 128, 191)
   else if b =? 240 then Some (3%nat, 144, 191)
   else if (241 <=? b) && (b <=? 243) then Some (3%nat, 128, 191)
   else if b =? 244 then Some (3%nat, 128, 143)
   else None)%N.

(** [utf8.ValidString(s)]: the bytes of [s] are well-formed UTF-8. *)
Fixpoint ValidString (s : string) : bool :=
  match s with
  | EmptyString => true
  | String c rest =>
      if (Ascii.N_of_ascii c <? 128)%N then ValidString rest
      else
        match first (Ascii.N_of_ascii c), rest with
        | Some (1%nat, lo, hi), String c1 r =>
            inRange lo hi c1 && ValidString r
        | Some (2%nat, lo, hi), String c1 (String c2 r) =>
            inRange lo hi c1 && inRange 128 191 c2 && ValidString r
        | Some (3%nat, lo, hi), String c1 (String c2 (String c3 r)) =>
            inRange lo hi c1 && inRange 128 191 c2 && inRange 128 191 c3
            && ValidString r
        | _, _ => false
        end
  end.

End utf8.

(** ** package process (gopsutil) *)
Module process.

(** A process handle: its [Pid] field (an [int32]) and what its [Name()]
    method returns. *)
Record Process : Type := {
  Pid : Z;
  Name : string * option error
}.

End process.

(** ** package dto (Prometheus client model) *)
Module dto.

Record LabelPair : Type := {
  Name : string;
  Value : string
}.

(** [Gauge] is [None] for a series that is not a gauge (nil pointer). *)
Record Metric : Type := {
  Label : list LabelPair;
  Gauge : option float64
}.

Record MetricFamily : Type := {
  FamilyName : string;
  Metric_ : list Metric
}.

(** [m.Gauge.GetValue()]: the getter answers 0 on a nil receiver. *)
Definition GetValue (g : option float64) : float64 :=
  match g with
  | Some v => v
  | None => float64_zero
  end.

End dto.

(** ** The operating system as one loop iteration sees it *)

(** [Processes] is [process.Processes()]; [NewProcess], [CPUPercent] and
    [MemoryPercent] are the gopsutil calls at the pid they are given;
    [clockSince] is the clock as [time.Since] reads it and [clockNow] as the
    later [time.Now()] reads it. *)
Record OS : Type := {
  Processes : result (list process.Process);
  NewProcess : Z -> result process.Process;
  CPUPercent : process.Process -> result float64;
  MemoryPercent : process.Process -> result float32;
  clockSince : time.Time;
  clockNow : time.Time
}.

(** ** Program state *)

(** What [fmt.Printf] and [fmt.Println] wrote: a formatted text line, or the
    line [Metric: %s - Value: %f] with its two arguments. *)
Inductive line : Type :=
| Text (s : string)
| MetricLine (m : dto.Metric) (v : float64).

(** The package-level variables [cpuUsage], [memUsage], [pidUsage] (one
    gauge per label value, created by the first [WithLabelValues]) and
    [lastUpdate], with standard output. *)
Record State : Type := {
  cpuUsage : gmap string float64;
  memUsage : gmap string float64;
  pidUsage : gmap string float64;
  lastUpdate : gmap string time.Time;
  stdout : list line
}.

(** The state when [main] starts: empty vectors, [make(map...)]. *)
Definition init : State :=
  {| cpuUsage := ∅; memUsage := ∅; pidUsage := ∅; lastUpdate := ∅; stdout := [] |}.

Definition print (l : line) (s : State) : State :=
  {| cpuUsage := cpuUsage s; memUsage := memUsage s; pidUsage := pidUsage s;
     lastUpdate := lastUpdate s; stdout := stdout s ++ [l] |}.

(** The store once [Set(v)] has run on the cpu gauge of [name]. *)
Definition withCpu (name : string) (v : float64) (s : State) : State :=
  {| cpuUsage := <[name := v]> (cpuUsage s); memUsage := memUsage s;
     pidUsage := pidUsage s; lastUpdate := lastUpdate s; stdout := stdout s |}.

(** The store once [Set(v)] has run on the mem gauge of [name]. *)
Definition withMem (name : string) (v : float64) (s : State) : State :=
  {| cpuUsage := cpuUsage s; memUsage := <[name := v]> (memUsage s);
     pidUsage := pidUsage s; lastUpdate := lastUpdate s; stdout := stdout s |}.

(** The store once [Set(v)] has run on the pid gauge of [name]. *)
Definition withPid (name : string) (v : float64) (s : State) : State :=
  {| cpuUsage := cpuUsage s; memUsage := memUsage s;
     pidUsage := <[name := v]> (pidUsage s); lastUpdate := lastUpdate s;
     stdout := stdout s |}.

(** [lastUpdate[name] = t] *)
Definition setLastUpdate (name : string) (t : time.Time) (s : State) : State :=
  {| cpuUsage := cpuUsage s; memUsage := memUsage s; pidUsage := pidUsage s;
     lastUpdate := <[name := t]> (lastUpdate s); stdout := stdout s |}.

(** ** getPID *)

(** The search loop of [getPID]: the pid of the first process whose name
    (the error of [Name()] is dropped) equals [processName]. *)
Fixpoint findPID (processes : list process.Process) (processName : string)
  : option Z :=
  match processes with
  | [] => None
  | p :: rest =>
      if String.eqb (fst (process.Name p)) processName
      then Some (int_of_int32 (process.Pid p))
      else findPID rest processName
  end.

Definition getPID (os : OS) (processName : string) (s : State) : Z * State :=
  match Processes os with
  | Err err => (0, print (Text ("Error getting processes: " ++ err ++ nl)) s)
  | Ok processes =>
      match findPID processes processName with
      | Some pid => (pid, s)
      | None =>
          (0, print (Text ("Process with name " ++ processName ++ " not found" ++ nl)) s)
      end
  end.

(** ** updateMetrics *)

(** How control leaves a statement of [updateMetrics]: it falls through
    (or [continue]s to the next name), it [return]s from [updateMetrics],
    or it panics, which ends the program; each with the state at that
    point. *)
Inductive flow : Type :=
| Continue (s : State)
| Return (s : State)
| Panic (s : State).

Definition state_of (f : flow) : State :=
  match f with Continue s | Return s | Panic s => s end.

(** Sequencing: what follows runs only when control falls through. *)
Definition andThen (f : flow) (k : State -> flow) : flow :=
  match f with
  | Continue s => k s
  | Return s => Return s
  | Panic s => Panic s
  end.

Notation "'seq!' s <~ f ; k" := (andThen f (fun s => k))
  (at level 10, s name, f at level 100, k at level 200).

(** [vec.WithLabelValues(name)] panics when the label value is not valid
    UTF-8 (the vectors have the one label [process], so the number of
    values always fits). *)
Definition validLabelValue (name : string) : bool := utf8.ValidString name.

(** [cpuUsage.WithLabelValues(name).Set(v)] *)
Definition setCpu (name : string) (v : float64) (s : State) : flow :=
  if validLabelValue name then Continue (withCpu name v s) else Panic s.

(** [memUsage.WithLabelValues(name).Set(v)] *)
Definition setMem (name : string) (v : float64) (s : State) : flow :=
  if validLabelValue name then Continue (withMem name v s) else Panic s.

(** [pidUsage.WithLabelValues(name).Set(v)] *)
Definition setPid (name : string) (v : float64) (s : State) : flow :=
  if validLabelValue name then Continue (withPid name v s) else Panic s.

(** The guard [!ok || time.Since(lastUpdateTime) >= time.Second*5]. *)
Definition due (os : OS) (last : option time.Time) : bool :=
  match last with
  | None => true
  | Some lastUpdateTime =>
      5 * time.Second <=? time.Sub (clockSince os) lastUpdateTime
  end.

(** The body of the loop, for one [processName]. *)
Definition iteration (os : OS) (processName : string) (s0 : State) : flow :=
  let '(pid, s) := getPID os processName s0 in
  if pid =? 0 then
    seq! s1 <~ setCpu processName float64_zero s ;
    seq! s2 <~ setMem processName float64_zero s1 ;
    seq! s3 <~ setPid processName float64_zero s2 ;
    Continue s3
  else if due os (lastUpdate s !! processName) then
    match NewProcess os (int32 pid) with
    | Err err => Return (print (Text ("Error getting process: " ++ err ++ nl)) s)
    | Ok p =>
        match CPUPercent os p with
        | Err err =>
            Return (print (Text ("Error getting CPU percent: " ++ err ++ nl)) s)
        | Ok cpuPercent =>
            seq! s1 <~ setCpu processName cpuPercent s ;
            match MemoryPercent os p with
            | Err err =>
                Return (print (Text ("Error getting mem percent: " ++ err ++ nl)) s1)
            | Ok memoryPercent =>
                seq! s2 <~ setMem processName (float64_of_float32 memoryPercent) s1 ;
                seq! s3 <~ setPid processName (float64_of_int pid) s2 ;
                Continue (setLastUpdate processName (clockNow os) s3)
            end
        end
    end
  else Continue s.

(** The loop from the [i]-th name on; [os i] is the operating system as the
    [i]-th iteration finds it (each [getPID] enumerates afresh). A [return]
    or a panic in an iteration ends the loop. *)
Fixpoint updateLoop (os : nat -> OS) (i : nat) (processNames : list string)
    (s : State) : flow :=
  match processNames with
  | [] => Continue s
  | processName :: rest =>
      match iteration (os i) processName s with
      | Continue s' => updateLoop os (S i) rest s'
      | Return s' => Return s'
      | Panic s' => Panic s'
      end
  end.

(** One tick of the update goroutine (the mutex is held throughout): the
    state it leaves, also when it leaves it by a panic. *)
Definition updateMetrics (os : nat -> OS) (processNames : list string)
    (s : State) : State :=
  state_of (updateLoop os 0%nat processNames s).

(** ** printMetrics *)

(** [strings.HasPrefix(s, prefix)] *)
Definition HasPrefix (s prefix : string) : bool := String.prefix prefix s.

(** The condition under which a series is printed. *)
Definition printed (m : dto.Metric) : bool :=
  match dto.Label m with
  | [] => false
  | l :: _ => negb (HasPrefix (dto.Name l) "go_")
  end.

(** The inner loop: the lines of one family. *)
Fixpoint printFamily (ms : list dto.Metric) (s : State) : State :=
  match ms with
  | [] => s
  | m :: rest =>
      printFamily rest
        (if printed m then print (MetricLine m (dto.GetValue (dto.Gauge m))) s
         else s)
  end.

(** The outer loop over the gathered families. *)
Fixpoint printFamilies (mfs : list dto.MetricFamily) (s : State) : State :=
  match mfs with
  | [] => s
  | mf :: rest => printFamilies rest (printFamily (dto.Metric_ mf) s)
  end.

Definition separator : line :=
  Text ("==========================================" ++ nl).

(** One tick of the reporter; [gathered] is what
    [prometheus.DefaultGatherer.Gather()] returned. *)
Definition printMetrics (gathered : result (list dto.MetricFamily)) (s : State)
  : State :=
  match gathered with
  | Err err => print (Text ("Error gathering metrics: " ++ err ++ nl)) s
  | Ok mfs => print separator (printFamilies mfs s)
  end.

(** ** The program as a whole *)

(** The two goroutines of [main] exclude each other with [mutex], so a run
    is a sequence of whole passes: an update tick with the operating system
    it meets, or a reporter tick with what the gatherer returns to it. *)
Inductive activity : Type :=
| UpdateTick (os : nat -> OS)
| ReportTick (gathered : result (list dto.MetricFamily)).

(** Whether control fell through. *)
Definition continues (f : flow) : bool :=
  match f with
  | Continue _ => true
  | _ => false
  end.

(** Whether a pass ended in a panic. *)
Definition crashed (f : flow) : bool :=
  match f with
  | Panic _ => true
  | _ => false
  end.

(** The state after the passes of [acts], or the state in which the
    program ended when an update pass panicked: nothing runs after that. *)
Fixpoint run (processNames : list string) (acts : list activity) (s : State)
  : State :=
  match acts with
  | [] => s
  | UpdateTick os :: rest =>
      let f := updateLoop os 0%nat processNames s in
      if crashed f then state_of f else run processNames rest (state_of f)
  | ReportTick gathered :: rest =>
      run processNames rest (printMetrics gathered s)
  end.

(** ** Vocabulary of the properties *)

(** What the store holds for one name: cpu, mem, pid and the timestamp. *)
Definition entryAt (s : State) (name : string)
  : option float64 * option float64 * option float64 * option time.Time :=
  (cpuUsage s !! name, memUsage s !! name, pidUsage s !! name,
   lastUpdate s !! name).

(** The three gauges of one name. *)
Definition gaugesAt (s : State) (name : string)
  : option float64 * option float64 * option float64 :=
  (cpuUsage s !! name, memUsage s !! name, pidUsage s !! name).


(** The not-found policy: all three gauges at 0. *)
Definition zeroed (s : State) (name : string) : Prop :=
  gaugesAt s name = (Some float64_zero, Some float64_zero, Some float64_zero).

(** The first read of the sampling sequence that fails, if one does; a
    failed memory read comes with the CPU reading taken before it. *)
Inductive failure : Type :=
| LookupFailed (err : error)
| CpuFailed (err : error)
| MemFailed (cpuPercent : float64) (err : error).

Definition sampleFailure (os : OS) (pid : Z) : option failure :=
  match NewProcess os (int32 pid) with
  | Err err => Some (LookupFailed err)
  | Ok p =>
      match CPUPercent os p with
      | Err err => Some (CpuFailed err)
      | Ok cpuPercent =>
          match MemoryPercent os p with
          | Err err => Some (MemFailed cpuPercent err)
          | Ok _ => None
          end
      end
  end.

(** The line a failed read leaves on standard output. *)
Definition failureLine (f : failure) : line :=
  match f with
  | LookupFailed err => Text ("Error getting process: " ++ err ++ nl)
  | CpuFailed err => Text ("Error getting CPU percent: " ++ err ++ nl)
  | MemFailed _ err => Text ("Error getting mem percent: " ++ err ++ nl)
  end.

(** The series a gauge vector declared with the one label [process] holds
    for the label value [name]. *)
Definition series (name : string) (v : float64) : dto.Metric :=
  {| dto.Label := [ {| dto.Name := "process"; dto.Value := name |} ];
     dto.Gauge := Some v |}.

(** All the series of a vector, one per label value it was used with. *)
Definition snapshot (vec : gmap string float64) : list dto.Metric :=
  (fun kv => series kv.1 kv.2) <$> map_to_list vec.


(** [s'] holds every gauge and every timestamp that [s] holds (values may
    differ). *)
Definition keeps (s s' : State) : Prop :=
  forall m,
    (is_Some (cpuUsage s !! m) -> is_Some (cpuUsage s' !! m)) /\
    (is_Some (memUsage s !! m) -> is_Some (memUsage s' !! m)) /\
    (is_Some (pidUsage s !! m) -> is_Some (pidUsage s' !! m)) /\
    (is_Some (lastUpdate s !! m) -> is_Some (lastUpdate s' !! m)).

(** The pid [getPID] answers for a name; it does not depend on the state. *)
Definition resolve (os : OS) (name : string) : Z := (getPID os name init).1.

(** The error of a failed enumeration (empty when it succeeded). *)
Definition enumerationError (os : OS) : error :=
  match Processes os with
  | Err err => err
  | Ok _ => EmptyString
  end.

(** The line the reporter prints for a series. *)
Definition metricLine (m : dto.Metric) : line :=
  MetricLine m (dto.GetValue (dto.Gauge m)).

(** The gathered series, family after family. *)
Definition allSeries (mfs : list dto.MetricFamily) : list dto.Metric :=
  concat (map dto.Metric_ mfs).

(** The report as the specification words it: the series of every family
    whose name does not start with [go_], then the separator. *)
Definition specifiedReport (mfs : list dto.MetricFamily) : list line :=
  map metricLine
    (allSeries
       (List.filter (fun mf => negb (HasPrefix (dto.FamilyName mf) "go_")) mfs))
  ++ [separator].

(** Unfolding the setters down to the maps they change. *)
Ltac unfold_store :=
  unfold entryAt, gaugesAt, setLastUpdate, withPid, withMem, withCpu, print;
  cbn [cpuUsage memUsage pidUsage lastUpdate stdout].

Create HintDb store.

(** ** Scenarios

    One monitored process, [a] with pid 7, and the ways a tick can find
    the operating system. *)
Module Scenario.

Definition sec (n : Z) : time.Time := n * time.Second.

(** The reading [n] percent. *)
Definition pct (n : Z) : float64 := float64_of_int n.

Definition procA : process.Process :=
  {| process.Pid := 7; process.Name := ("a"%string, None) |}.

(** What [NewProcess] hands back on success. *)
Definition handle (pid : Z) : process.Process :=
  {| process.Pid := pid; process.Name := (EmptyString, None) |}.

(** [a] runs and every read succeeds: cpu 12, mem 3. *)
Definition healthy (t : time.Time) : OS :=
  {| Processes := Ok [procA];
     NewProcess := fun pid => Ok (handle pid);
     CPUPercent := fun _ => Ok (pct 12);
     MemoryPercent := fun _ => Ok (pct 3);
     clockSince := t; clockNow := t |}.

(** [a] runs, the cpu read gives 40, the memory read fails. *)
Definition memFails (t : time.Time) : OS :=
  {| Processes := Ok [procA];
     NewProcess := fun pid => Ok (handle pid);
     CPUPercent := fun _ => Ok (pct 40);
     MemoryPercent := fun _ => Err "no such file or directory"%string;
     clockSince := t; clockNow := t |}.

(** [a] is in the process table but gone when it is looked up. *)
Definition vanished (t : time.Time) : OS :=
  {| Processes := Ok [procA];
     NewProcess := fun _ => Err "process does not exist"%string;
     CPUPercent := fun _ => Ok (pct 12);
     MemoryPercent := fun _ => Ok (pct 3);
     clockSince := t; clockNow := t |}.

(** No monitored process runs. *)
Definition absent (t : time.Time) : OS :=
  {| Processes := Ok [];
     NewProcess := fun _ => Err "process does not exist"%string;
     CPUPercent := fun _ => Ok (pct 12);
     MemoryPercent := fun _ => Ok (pct 3);
     clockSince := t; clockNow := t |}.

(** The process table cannot be read. *)
Definition enumFails (t : time.Time) : OS :=
  {| Processes := Err "permission denied"%string;
     NewProcess := fun pid => Ok (handle pid);
     CPUPercent := fun _ => Ok (pct 12);
     MemoryPercent := fun _ => Ok (pct 3);
     clockSince := t; clockNow := t |}.

(** The store after a first tick that sampled [a] at second 5. *)
Definition sampled : State :=
  updateMetrics (fun _ => healthy (sec 5)) ["a"%string] init.

(** Three gathered families: the cpu gauge of [a], the runtime's
    [go_info] with its [version] label, and the unlabelled
    [process_open_fds]. *)
Definition cpuOfA : dto.Metric := series "a" (pct 12).

Definition goInfo : dto.Metric :=
  {| dto.Label := [ {| dto.Name := "version"; dto.Value := "go1.21.0" |} ];
     dto.Gauge := Some (pct 1) |}.

Definition openFds : dto.Metric :=
  {| dto.Label := []; dto.Gauge := Some (pct 9) |}.

Definition gathered : list dto.MetricFamily :=
  [ {| dto.FamilyName := "Cpuinfo"; dto.Metric_ := [cpuOfA] |};
    {| dto.FamilyName := "go_info"; dto.Metric_ := [goInfo] |};
    {| dto.FamilyName := "process_open_fds"; dto.Metric_ := [openFds] |} ].

End Scenario.

(** ** Vocabulary of the further properties *)

(** The order in which the entries of a name come to exist: cpu before
    mem, mem before pid, pid before the timestamp. *)
Definition created_in_order (s : State) : Prop :=
  forall m,
    (is_Some (lastUpdate s !! m) -> is_Some (pidUsage s !! m)) /\
    (is_Some (pidUsage s !! m) -> is_Some (memUsage s !! m)) /\
    (is_Some (memUsage s !! m) -> is_Some (cpuUsage s !! m)).

(** An activity in which [name] resolves to 0 every time it is looked up. *)
Definition neverResolves (names : list string) (name : string) (a : activity)
  : Prop :=
  match a with
  | UpdateTick os => forall i, names !! i = Some name -> resolve (os i) name = 0
  | ReportTick _ => True
  end.

(** Every name the store has an entry or a timestamp for is valid UTF-8. *)
Definition written_names_are_valid (s : State) : Prop :=
  forall m,
    is_Some (cpuUsage s !! m) \/ is_Some (memUsage s !! m) \/
    is_Some (pidUsage s !! m) \/ is_Some (lastUpdate s !! m) ->
    utf8.ValidString m = true.

(** A name without any entry. *)
Definition noEntry
  : option float64 * option float64 * option float64 * option time.Time :=
  (None, None, None, None).

(** Further scenarios: a process table in which the first process called
    [a] has pid 0 and a second one has pid 7. *)
Module Edge.

(** A name that is not valid UTF-8: the single byte 0xFF. *)
Definition badName : string := String (Ascii.ascii_of_nat 255) EmptyString.

(** A process of that name, pid 9, whose reads all succeed. *)
Definition badRuns (t : time.Time) : OS :=
  {| Processes :=
       Ok [ {| process.Pid := 9; process.Name := (badName, None) |} ];
     NewProcess := fun pid => Ok (Scenario.handle pid);
     CPUPercent := fun _ => Ok (Scenario.pct 12);
     MemoryPercent := fun _ => Ok (Scenario.pct 3);
     clockSince := t; clockNow := t |}.

Definition idleA : process.Process :=
  {| process.Pid := 0; process.Name := ("a"%string, None) |}.

Definition other : process.Process :=
  {| process.Pid := 3; process.Name := ("init"%string, None) |}.

Definition pidZeroFirst (t : time.Time) : OS :=
  {| Processes := Ok [other; idleA; Scenario.procA];
     NewProcess := fun pid => Ok (Scenario.handle pid);
     CPUPercent := fun _ => Ok (Scenario.pct 12);
     MemoryPercent := fun _ => Ok (Scenario.pct 3);
     clockSince := t; clockNow := t |}.

End Edge.

(** * Properties *)

(** ** getPID *)

Lemma getPID_store os name s :
  let s' := (getPID os name s).2 in
  cpuUsage s' = cpuUsage s /\ memUsage s' = memUsage s /\
  pidUsage s' = pidUsage s /\ lastUpdate s' = lastUpdate s.
Proof.
  unfold getPID.
  destruct (Processes os) as [ps | e]; [destruct (findPID ps name) |]; done.
Qed.

Lemma getPID_found os name s :
  (getPID os name s).1 <> 0 -> (getPID os name s).2 = s.
Proof.
  unfold getPID.
  destruct (Processes os) as [ps | e]; [destruct (findPID ps name) |]; done.
Qed.

Lemma getPID_entryAt os name s m :
  entryAt (getPID os name s).2 m = entryAt s m.
Proof.
  destruct (getPID_store os name s) as (Hc & Hm & Hp & Hl).
  unfold entryAt. by rewrite Hc, Hm, Hp, Hl.
Qed.

Lemma getPID_enumeration_error os name s err :
  Processes os = Err err ->
  getPID os name s = (0, print (Text ("Error getting processes: " ++ err ++ nl)) s).
Proof. unfold getPID. by intros ->. Qed.

(** ** Writing a gauge *)

Lemma setCpu_valid name v s :
  utf8.ValidString name = true -> setCpu name v s = Continue (withCpu name v s).
Proof. unfold setCpu, validLabelValue. by intros ->. Qed.

Lemma setMem_valid name v s :
  utf8.ValidString name = true -> setMem name v s = Continue (withMem name v s).
Proof. unfold setMem, validLabelValue. by intros ->. Qed.

Lemma setPid_valid name v s :
  utf8.ValidString name = true -> setPid name v s = Continue (withPid name v s).
Proof. unfold setPid, validLabelValue. by intros ->. Qed.

Lemma setCpu_invalid name v s :
  utf8.ValidString name = false -> setCpu name v s = Panic s.
Proof. unfold setCpu, validLabelValue. by intros ->. Qed.

(** Running the writes of a valid name one after the other. *)
Ltac write_gauges Hv :=
  repeat (first [ rewrite (setCpu_valid _ _ _ Hv)
                | rewrite (setMem_valid _ _ _ Hv)
                | rewrite (setPid_valid _ _ _ Hv) ];
          cbn [andThen]).

(** ** The ways through one iteration *)

(** Resolution answered 0: the three gauges are zeroed and the loop goes on. *)
Lemma iteration_not_found os name s :
  (getPID os name s).1 = 0 ->
  utf8.ValidString name = true ->
  iteration os name s =
    Continue (withPid name float64_zero
               (withMem name float64_zero
                 (withCpu name float64_zero (getPID os name s).2))).
Proof.
  unfold iteration. destruct (getPID os name s) as [pid s1]; cbn [fst snd].
  intros -> Hv. cbn [Z.eqb]. by write_gauges Hv.
Qed.

(** Resolved, stamped less than five seconds ago: nothing happens. *)
Lemma iteration_fresh os name s t :
  (getPID os name s).1 <> 0 ->
  lastUpdate s !! name = Some t ->
  time.Sub (clockSince os) t < 5 * time.Second ->
  iteration os name s = Continue s.
Proof.
  intros Hpid Ht Hlt. unfold iteration.
  pose proof (getPID_found os name s Hpid) as Hs.
  destruct (getPID os name s) as [pid s1]; cbn [fst snd] in *; subst s1.
  destruct (Z.eqb_spec pid 0) as [|_]; [done|].
  rewrite Ht; cbn [due].
  destruct (Z.leb_spec (5 * time.Second) (time.Sub (clockSince os) t)); [lia | done].
Qed.

(** Resolved and due, a read fails: the error is printed and
    [updateMetrics] returns; a failed memory read comes after the cpu gauge
    was set, which takes a name that is valid UTF-8. *)
Lemma iteration_failure os name s f :
  (getPID os name s).1 <> 0 ->
  due os (lastUpdate s !! name) = true ->
  sampleFailure os (getPID os name s).1 = Some f ->
  (forall c e, f = MemFailed c e -> utf8.ValidString name = true) ->
  iteration os name s =
    Return (print (failureLine f)
              match f with
              | MemFailed cpuPercent _ => withCpu name cpuPercent s
              | _ => s
              end).
Proof.
  intros Hpid Hdue Hf Hv. unfold iteration.
  pose proof (getPID_found os name s Hpid) as Hs.
  destruct (getPID os name s) as [pid s1]; cbn [fst snd] in *; subst s1.
  destruct (Z.eqb_spec pid 0) as [|_]; [done|].
  rewrite Hdue. unfold sampleFailure in Hf.
  destruct (NewProcess os (int32 pid)) as [p | e]; [| by simplify_eq].
  destruct (CPUPercent os p) as [c | e]; [| by simplify_eq].
  destruct (MemoryPercent os p) as [m | e]; [done|]. simplify_eq.
  specialize (Hv c e eq_refl). by write_gauges Hv.
Qed.

(** Resolved and due, all reads succeed: the three gauges and the
    timestamp are written. *)
Lemma iteration_success os name s p cpuPercent memoryPercent :
  (getPID os name s).1 <> 0 ->
  due os (lastUpdate s !! name) = true ->
  NewProcess os (int32 (getPID os name s).1) = Ok p ->
  CPUPercent os p = Ok cpuPercent ->
  MemoryPercent os p = Ok memoryPercent ->
  utf8.ValidString name = true ->
  iteration os name s =
    Continue
      (setLastUpdate name (clockNow os)
        (withPid name (float64_of_int (getPID os name s).1)
          (withMem name (float64_of_float32 memoryPercent)
            (withCpu name cpuPercent s)))).
Proof.
  intros Hpid Hdue Hp Hc Hm Hv. unfold iteration.
  pose proof (getPID_found os name s Hpid) as Hs.
  destruct (getPID os name s) as [pid s1]; cbn [fst snd] in *; subst s1.
  destruct (Z.eqb_spec pid 0) as [|_]; [done|].
  rewrite Hdue, Hp, Hc. write_gauges Hv. rewrite Hm. by write_gauges Hv.
Qed.

(** A gauge of a name that is not valid UTF-8 is to be written: the
    iteration panics at the first write, with nothing written. *)
Lemma iteration_panic os name s :
  utf8.ValidString name = false ->
  (getPID os name s).1 = 0
  \/ ((getPID os name s).1 <> 0 /\
      due os (lastUpdate s !! name) = true /\
      exists p c,
        NewProcess os (int32 (getPID os name s).1) = Ok p /\
        CPUPercent os p = Ok c) ->
  iteration os name s = Panic (getPID os name s).2.
Proof.
  intros Hv Hwrite. unfold iteration.
  destruct Hwrite as [Hz | (Hpid & Hdue & p & c & Hp & Hc)].
  - destruct (getPID os name s) as [pid s1]; cbn [fst snd] in *; subst pid.
    cbn [Z.eqb]. by rewrite (setCpu_invalid _ _ _ Hv).
  - pose proof (getPID_found os name s Hpid) as Hs.
    destruct (getPID os name s) as [pid s1]; cbn [fst snd] in *; subst s1.
    destruct (Z.eqb_spec pid 0) as [|_]; [done|].
    by rewrite Hdue, Hp, Hc, (setCpu_invalid _ _ _ Hv).
Qed.

(** Every iteration is one of the five. *)
Lemma iteration_cases os name s :
  let pid := (getPID os name s).1 in
  let s1 := (getPID os name s).2 in
  (pid = 0 /\ utf8.ValidString name = true /\
   iteration os name s =
     Continue (withPid name float64_zero
                (withMem name float64_zero (withCpu name float64_zero s1))))
  \/ (pid <> 0 /\ is_Some (lastUpdate s !! name) /\ iteration os name s = Continue s)
  \/ (pid <> 0 /\ exists f,
        (forall c e, f = MemFailed c e -> utf8.ValidString name = true) /\
        iteration os name s =
          Return (print (failureLine f)
                    match f with
                    | MemFailed cpuPercent _ => withCpu name cpuPercent s
                    | _ => s
                    end))
  \/ (pid <> 0 /\ utf8.ValidString name = true /\
      exists cpuPercent memoryPercent,
        iteration os name s =
          Continue
            (setLastUpdate name (clockNow os)
              (withPid name (float64_of_int pid)
                (withMem name (float64_of_float32 memoryPercent)
                  (withCpu name cpuPercent s)))))
  \/ (utf8.ValidString name = false /\ iteration os name s = Panic s1).
Proof.
  intros pid s1. subst pid s1.
  destruct (Z.eq_dec (getPID os name s).1 0) as [Hz | Hnz].
  { destruct (utf8.ValidString name) eqn:Hv.
    - left. split_and!; [done | done |]. by apply iteration_not_found.
    - do 4 right. split; [done|]. apply iteration_panic; [done | by left]. }
  right.
  destruct (due os (lastUpdate s !! name)) eqn:Hdue.
  - right.
    destruct (NewProcess os (int32 (getPID os name s).1)) as [p | e] eqn:Hp.
    2: { left. split; [done|]. exists (LookupFailed e). split; [done|].
         apply iteration_failure; try done. unfold sampleFailure. by rewrite Hp. }
    destruct (CPUPercent os p) as [c | e] eqn:Hc.
    2: { left. split; [done|]. exists (CpuFailed e). split; [done|].
         apply iteration_failure; try done. unfold sampleFailure. by rewrite Hp, Hc. }
    destruct (utf8.ValidString name) eqn:Hv.
    2: { do 2 right. split; [done|]. apply iteration_panic; [done|].
         right. split_and!; [done | done |]. by exists p, c. }
    destruct (MemoryPercent os p) as [m | e] eqn:Hm.
    + right; left. split_and!; [done | done |]. exists c, m.
      by eapply iteration_success.
    + left. split; [done|]. exists (MemFailed c e). split; [done|].
      apply iteration_failure; try done.
      unfold sampleFailure. by rewrite Hp, Hc, Hm.
  - left. split; [done|].
    destruct (lastUpdate s !! name) as [t|] eqn:Ht; [| done].
    split; [by eexists|].
    apply (iteration_fresh os name s t); [done | done |].
    cbn [due] in Hdue. by apply Z.leb_gt in Hdue.
Qed.

(** A name that is not valid UTF-8 keeps its entries through its own
    iteration. *)
Lemma iteration_invalid_name os name s :
  utf8.ValidString name = false ->
  entryAt (state_of (iteration os name s)) name = entryAt s name.
Proof.
  intros Hv.
  destruct (iteration_cases os name s)
    as [(_ & Hv' & _) | [(_ & _ & ->) | [(_ & f & Hf & ->)
        | [(_ & Hv' & _) | (_ & ->)]]]];
    cbn [state_of].
  - congruence.
  - done.
  - destruct f as [e | e | c e]; [done | done |].
    specialize (Hf c e eq_refl). congruence.
  - congruence.
  - apply getPID_entryAt.
Qed.

(** ** Frame: an iteration touches the entries of its own name only *)

Lemma iteration_frame os name s m :
  m <> name ->
  entryAt (state_of (iteration os name s)) m = entryAt s m.
Proof.
  intros Hne.
  destruct (iteration_cases os name s)
    as [(_ & _ & ->) | [(_ & _ & ->) | [(_ & f & _ & ->)
        | [(_ & _ & c & x & ->) | (_ & ->)]]]];
    cbn [state_of].
  - rewrite <- (getPID_entryAt os name s m). unfold_store.
    by rewrite !lookup_insert_ne.
  - done.
  - destruct f; unfold_store; [done | done |]. by rewrite lookup_insert_ne.
  - unfold_store. by rewrite !lookup_insert_ne.
  - apply getPID_entryAt.
Qed.

Lemma updateLoop_frame os names m :
  m ∉ names ->
  forall i s, entryAt (state_of (updateLoop os i names s)) m = entryAt s m.
Proof.
  induction names as [| n rest IH]; intros Hm i s; [done|].
  apply not_elem_of_cons in Hm as [Hne Hrest].
  cbn [updateLoop].
  pose proof (iteration_frame (os i) n s m Hne) as Hit.
  destruct (iteration (os i) n s) as [s' | s' | s']; cbn [state_of] in *.
  - by rewrite IH.
  - done.
  - done.
Qed.

(** ** Monotonicity: no entry and no timestamp is ever removed *)

Lemma keeps_refl s : keeps s s.
Proof. by intros m. Qed.

Lemma keeps_trans s1 s2 s3 : keeps s1 s2 -> keeps s2 s3 -> keeps s1 s3.
Proof.
  intros H12 H23 m. specialize (H12 m). specialize (H23 m). tauto.
Qed.

Lemma keeps_print l s : keeps s (print l s).
Proof. by intros m. Qed.

Lemma is_Some_insert_mono {V} (vec : gmap string V) (n m : string) (v : V) :
  is_Some (vec !! m) -> is_Some (<[n := v]> vec !! m).
Proof.
  intros H. destruct (decide (n = m)) as [-> | Hne].
  - rewrite lookup_insert_eq. by eexists.
  - by rewrite lookup_insert_ne.
Qed.

Lemma keeps_withCpu n v s : keeps s (withCpu n v s).
Proof. intros m. unfold_store. split_and!; auto using is_Some_insert_mono. Qed.

Lemma keeps_withMem n v s : keeps s (withMem n v s).
Proof. intros m. unfold_store. split_and!; auto using is_Some_insert_mono. Qed.

Lemma keeps_withPid n v s : keeps s (withPid n v s).
Proof. intros m. unfold_store. split_and!; auto using is_Some_insert_mono. Qed.

Lemma keeps_setLastUpdate n t s : keeps s (setLastUpdate n t s).
Proof. intros m. unfold_store. split_and!; auto using is_Some_insert_mono. Qed.

Lemma keeps_getPID os name s : keeps s (getPID os name s).2.
Proof.
  intros m. destruct (getPID_store os name s) as (-> & -> & -> & ->). done.
Qed.

#[local] Hint Resolve keeps_refl keeps_print keeps_withCpu keeps_withMem
  keeps_withPid keeps_setLastUpdate keeps_getPID : store.

Lemma iteration_keeps os name s : keeps s (state_of (iteration os name s)).
Proof.
  destruct (iteration_cases os name s)
    as [(_ & _ & ->) | [(_ & _ & ->) | [(_ & f & _ & ->)
        | [(_ & _ & c & x & ->) | (_ & ->)]]]];
    cbn [state_of].
  - repeat (eapply keeps_trans; [| eauto with store]). eauto with store.
  - eauto with store.
  - destruct f; repeat (eapply keeps_trans; [| eauto with store]);
      eauto with store.
  - repeat (eapply keeps_trans; [| eauto with store]). eauto with store.
  - eauto with store.
Qed.

Lemma updateLoop_keeps os names :
  forall i s, keeps s (state_of (updateLoop os i names s)).
Proof.
  induction names as [| n rest IH]; intros i s; cbn [updateLoop].
  - apply keeps_refl.
  - pose proof (iteration_keeps (os i) n s) as Hit.
    destruct (iteration (os i) n s) as [s' | s' | s']; cbn [state_of] in *.
    + eapply keeps_trans; [exact Hit | apply IH].
    + exact Hit.
    + exact Hit.
Qed.

Lemma printFamily_store ms :
  forall s, let s' := printFamily ms s in
    cpuUsage s' = cpuUsage s /\ memUsage s' = memUsage s /\
    pidUsage s' = pidUsage s /\ lastUpdate s' = lastUpdate s.
Proof.
  induction ms as [| m rest IH]; intros s; cbn [printFamily]; [done|].
  destruct (IH (if printed m
                then print (MetricLine m (dto.GetValue (dto.Gauge m))) s
                else s)) as (-> & -> & -> & ->).
  by destruct (printed m).
Qed.

Lemma printFamilies_store mfs :
  forall s, let s' := printFamilies mfs s in
    cpuUsage s' = cpuUsage s /\ memUsage s' = memUsage s /\
    pidUsage s' = pidUsage s /\ lastUpdate s' = lastUpdate s.
Proof.
  induction mfs as [| mf rest IH]; intros s; cbn [printFamilies]; [done|].
  destruct (IH (printFamily (dto.Metric_ mf) s)) as (-> & -> & -> & ->).
  apply printFamily_store.
Qed.

(** The reporter reads the store and writes standard output only. *)
Lemma printMetrics_store gathered s :
  let s' := printMetrics gathered s in
  cpuUsage s' = cpuUsage s /\ memUsage s' = memUsage s /\
  pidUsage s' = pidUsage s /\ lastUpdate s' = lastUpdate s.
Proof.
  destruct gathered as [mfs | e]; cbn [printMetrics]; [| done].
  unfold print; cbn [cpuUsage memUsage pidUsage lastUpdate].
  apply printFamilies_store.
Qed.

(** ** Runs *)

(** What every update pass and every reporter pass keeps true is true of
    the state a run ends in. *)
Lemma run_invariant (P : State -> Prop) names :
  (forall os s, P s -> P (updateMetrics os names s)) ->
  (forall gathered s, P s -> P (printMetrics gathered s)) ->
  forall acts s, P s -> P (run names acts s).
Proof.
  intros Hupd Hrep. induction acts as [| a rest IH]; intros s Hs; [done|].
  destruct a as [os | gathered]; cbn [run].
  - specialize (Hupd os s Hs). unfold updateMetrics in Hupd.
    destruct (crashed (updateLoop os 0 names s)); [done | by apply IH].
  - by apply IH, Hrep.
Qed.

Lemma run_keeps names acts : forall s, keeps s (run names acts s).
Proof.
  intros s. apply (run_invariant (keeps s)); [| | apply keeps_refl].
  - intros os s' Hk. eapply keeps_trans; [exact Hk | apply updateLoop_keeps].
  - intros gathered s' Hk m.
    destruct (printMetrics_store gathered s') as (-> & -> & -> & ->). apply Hk.
Qed.

Lemma getPID_resolve os name s : (getPID os name s).1 = resolve os name.
Proof.
  unfold resolve, getPID.
  destruct (Processes os) as [ps | e]; [destruct (findPID ps name) |]; done.
Qed.

(** * The claims *)

Import Scenario.

(** ** Sample-read failures *)

(** A failed read ends the pass with its error line on standard output; the
    mem and pid gauges and the timestamps stay, and so do the cpu gauges
    unless the failing read is the memory read (which comes after the write
    of the cpu gauge, a write that takes a name that is valid UTF-8). *)
Lemma failed_read_retains os name s f :
  resolve os name <> 0 ->
  due os (lastUpdate s !! name) = true ->
  sampleFailure os (resolve os name) = Some f ->
  (forall c e, f = MemFailed c e -> utf8.ValidString name = true) ->
  exists s',
    iteration os name s = Return s' /\
    stdout s' = stdout s ++ [failureLine f] /\
    memUsage s' = memUsage s /\ pidUsage s' = pidUsage s /\
    lastUpdate s' = lastUpdate s /\
    ((forall c e, f <> MemFailed c e) -> cpuUsage s' = cpuUsage s).
Proof.
  rewrite <- (getPID_resolve os name s). intros Hpid Hdue Hf Hv.
  eexists. split; [by apply iteration_failure|].
  destruct f as [e | e | c e]; unfold_store; split_and!; try done.
  intros Hno. by destruct (Hno c e).
Qed.

(** A failed read ends the whole pass: the names after it are not
    reached, and no entry of another name is touched. *)
Lemma failed_read_ends_pass os i name rest s f :
  resolve (os i) name <> 0 ->
  due (os i) (lastUpdate s !! name) = true ->
  sampleFailure (os i) (resolve (os i) name) = Some f ->
  (forall c e, f = MemFailed c e -> utf8.ValidString name = true) ->
  exists s',
    updateLoop os i (name :: rest) s = Return s' /\
    forall m, m <> name -> entryAt s' m = entryAt s m.
Proof.
  intros Hpid Hdue Hf Hv.
  destruct (failed_read_retains (os i) name s f Hpid Hdue Hf Hv) as (s' & Hit & _).
  exists s'. split; [cbn [updateLoop]; by rewrite Hit|].
  intros m Hne. pose proof (iteration_frame (os i) name s m Hne) as Hfr.
  by rewrite Hit in Hfr.
Qed.

(** C1 (code defect): a name sampled at second 5 (cpu 12, mem 3, pid 7)
    meets, at second 10, a tick whose memory read fails after the cpu read
    gave 40. The mem and pid gauges and the timestamp are the ones from
    before the tick, the cpu gauge is not: it holds 40. *)
Theorem C1_failed_memory_read_overwrites_cpu :
  let s2 := updateMetrics (fun _ => memFails (sec 10)) ["a"%string] sampled in
  entryAt sampled "a" = (Some (pct 12), Some (pct 3), Some (pct 7), Some (sec 5)) /\
  sampleFailure (memFails (sec 10)) (resolve (memFails (sec 10)) "a")
    = Some (MemFailed (pct 40) "no such file or directory") /\
  entryAt s2 "a" = (Some (pct 40), Some (pct 3), Some (pct 7), Some (sec 5)) /\
  cpuUsage s2 !! "a" <> cpuUsage sampled !! "a".
Proof.
  vm_compute. split_and!; try reflexivity. discriminate.
Qed.

(** C2 (code defect): two names, [a] in the process table and [b] not. When
    the lookup of [a] fails, the pass over [a; b] returns before [b] is
    reached and [b] gets no gauge at all; the pass over [b; a] zeroes the
    gauges of [b]. What [b] gets depends on the failure of [a]. *)
Theorem C2_failed_read_blocks_the_other_name :
  resolve (vanished (sec 5)) "a" = 7 /\
  resolve (vanished (sec 5)) "b" = 0 /\
  gaugesAt (updateMetrics (fun _ => vanished (sec 5)) ["a"; "b"]%string init) "b"
    = (None, None, None) /\
  gaugesAt (updateMetrics (fun _ => vanished (sec 5)) ["b"; "a"]%string init) "b"
    = (Some float64_zero, Some float64_zero, Some float64_zero).
Proof. vm_compute. by split_and!. Qed.

(** C3 (code defect): the pass over [a; b] whose memory read fails for [a]
    returns at [a] and leaves [b] without entry, but it has updated [a]:
    the cpu gauge of [a] was created with the reading 40. *)
Theorem C3_abandoned_pass_has_written_cpu :
  exists s',
    updateLoop (fun _ => memFails (sec 5)) 0 ["a"; "b"]%string init = Return s' /\
    entryAt init "a" = (None, None, None, None) /\
    entryAt s' "a" = (Some (pct 40), None, None, None) /\
    entryAt s' "b" = (None, None, None, None).
Proof. eexists. vm_compute. by split_and!. Qed.

(** C6 (as stated, refuted): [a], sampled at second 5, is still in the
    process table at second 10 but has exited when it is looked up. The
    lookup fails with an error, and the gauges of [a] are the ones of second
    5: they are not set to 0. *)
Lemma C6_vanished_process_is_not_zeroed :
  let os := vanished (sec 10) in
  let s2 := updateMetrics (fun _ => os) ["a"%string] sampled in
  resolve os "a" = 7 /\
  sampleFailure os (resolve os "a") = Some (LookupFailed "process does not exist") /\
  gaugesAt s2 "a" = (Some (pct 12), Some (pct 3), Some (pct 7)) /\
  ~ zeroed s2 "a".
Proof.
  vm_compute. split_and!; try reflexivity. discriminate.
Qed.

(** C6 (amended): when a name resolves to a pid, is due, and a read of the
    sample fails, the failure comes back as an error whose line is printed
    (the pass returns, nothing crashes) and the gauges of the name are not
    zeroed: its mem and pid gauges and its timestamp keep their values, and
    its cpu gauge too when the failing read is the process lookup or the
    cpu read. A failed memory read is reached only after the cpu gauge was
    written, which takes a name that is valid UTF-8. *)
Theorem C6_failed_sample_keeps_last_values os name s f :
  resolve os name <> 0 ->
  due os (lastUpdate s !! name) = true ->
  sampleFailure os (resolve os name) = Some f ->
  (forall c e, f = MemFailed c e -> utf8.ValidString name = true) ->
  exists s',
    iteration os name s = Return s' /\
    stdout s' = stdout s ++ [failureLine f] /\
    memUsage s' !! name = memUsage s !! name /\
    pidUsage s' !! name = pidUsage s !! name /\
    lastUpdate s' !! name = lastUpdate s !! name /\
    ((forall c e, f <> MemFailed c e) ->
     cpuUsage s' !! name = cpuUsage s !! name).
Proof.
  intros Hpid Hdue Hf Hv.
  destruct (failed_read_retains os name s f Hpid Hdue Hf Hv)
    as (s' & Hit & Hout & Hm & Hp & Hl & Hc).
  exists s'. rewrite Hm, Hp, Hl. split_and!; try done.
  intros Hno. by rewrite (Hc Hno).
Qed.

Lemma C6_failed_sample_keeps_last_values_witness :
  resolve (vanished (sec 10)) "a" <> 0 /\
  due (vanished (sec 10)) (lastUpdate sampled !! "a") = true /\
  exists s',
    iteration (vanished (sec 10)) "a" sampled = Return s' /\
    pidUsage s' !! "a" = pidUsage sampled !! "a".
Proof.
  split; [by vm_compute|]. split; [by vm_compute|].
  destruct (C6_failed_sample_keeps_last_values (vanished (sec 10)) "a" sampled
              (LookupFailed "process does not exist"))
    as (s' & Hit & _ & _ & Hp & _);
    [by vm_compute | by vm_compute | by vm_compute | done |].
  by exists s'.
Defined.

(** ** The not-found policy *)

Lemma zeroed_after_not_found name s :
  zeroed (withPid name float64_zero
           (withMem name float64_zero (withCpu name float64_zero s))) name.
Proof. unfold zeroed. unfold_store. by rewrite !lookup_insert_eq. Qed.





(** ** Staleness *)

Lemma entryAt_stamp s s' m :
  entryAt s' m = entryAt s m -> lastUpdate s' !! m = lastUpdate s !! m.
Proof. unfold entryAt. by intros [= _ _ _ ->]. Qed.

Lemma entryAt_gauges s s' m :
  entryAt s' m = entryAt s m -> gaugesAt s' m = gaugesAt s m.
Proof. unfold entryAt, gaugesAt. by intros [= -> -> -> _]. Qed.

(** A pass in which every iteration of [name] finds it resolved and
    stamped less than five seconds ago leaves the entries of [name] alone,
    whatever happens to the other names. *)
Lemma updateLoop_fresh os name t names :
  forall i s,
    lastUpdate s !! name = Some t ->
    (forall j, names !! j = Some name ->
       resolve (os (i + j)%nat) name <> 0 /\
       time.Sub (clockSince (os (i + j)%nat)) t < 5 * time.Second) ->
    entryAt (state_of (updateLoop os i names s)) name = entryAt s name.
Proof.
  induction names as [| n rest IH]; intros i s Ht Hfresh; [done|].
  cbn [updateLoop].
  assert (forall j, rest !! j = Some name ->
            resolve (os (S i + j)%nat) name <> 0 /\
            time.Sub (clockSince (os (S i + j)%nat)) t < 5 * time.Second)
    as Hrest.
  { intros j Hj. replace (S i + j)%nat with (i + S j)%nat by lia.
    by apply Hfresh. }
  destruct (decide (n = name)) as [-> | Hne].
  - destruct (Hfresh 0%nat eq_refl) as [Hpid Hlt].
    rewrite Nat.add_0_r in Hpid, Hlt.
    rewrite (iteration_fresh (os i) name s t);
      [by apply IH | by rewrite getPID_resolve | done | done].
  - assert (name <> n) as Hne' by done.
    pose proof (iteration_frame (os i) n s name Hne') as Hit.
    destruct (iteration (os i) n s) as [s' | s' | s']; cbn [state_of] in *;
      [| done | done].
    rewrite <- Hit. apply IH; [| done].
    by rewrite (entryAt_stamp _ _ _ Hit).
Qed.

(** C5: a name that has a timestamp less than five seconds old and
    resolves to a pid is not sampled. Its iteration reads nothing from the
    sampler and changes nothing (whatever [NewProcess], [CPUPercent] and
    [MemoryPercent] would answer, the state after it is the state before
    it, with no error line), and after the whole pass its cpu, mem and pid
    gauges and its timestamp are the ones from before the pass. *)
Theorem C5_fresh_name_is_not_sampled os names s name t :
  lastUpdate s !! name = Some t ->
  (forall i, names !! i = Some name ->
     resolve (os i) name <> 0 /\
     time.Sub (clockSince (os i)) t < 5 * time.Second) ->
  (forall i si, names !! i = Some name -> lastUpdate si !! name = Some t ->
     iteration (os i) name si = Continue si) /\
  entryAt (updateMetrics os names s) name = entryAt s name.
Proof.
  intros Ht Hfresh. split.
  - intros i si Hi Hsi. destruct (Hfresh i Hi) as [Hpid Hlt].
    apply (iteration_fresh (os i) name si t); [| done | done].
    by rewrite getPID_resolve.
  - unfold updateMetrics. by apply (updateLoop_fresh os name t).
Qed.

Lemma C5_fresh_name_is_not_sampled_witness :
  lastUpdate sampled !! "a" = Some (sec 5) /\
  entryAt (updateMetrics (fun _ => vanished (sec 7)) ["a"%string] sampled) "a"
    = entryAt sampled "a".
Proof.
  split; [by vm_compute|].
  apply (C5_fresh_name_is_not_sampled (fun _ => vanished (sec 7)) ["a"%string]
           sampled "a" (sec 5)).
  - by vm_compute.
  - intros i _. split; by vm_compute.
Defined.

(** ** Enumeration failure *)

Lemma iteration_enumeration_error os name s err :
  Processes os = Err err ->
  utf8.ValidString name = true ->
  iteration os name s =
    Continue (withPid name float64_zero
               (withMem name float64_zero
                 (withCpu name float64_zero
                   (print (Text ("Error getting processes: " ++ err ++ nl)) s)))).
Proof.
  intros Herr Hv. rewrite iteration_not_found;
    by rewrite ?(getPID_enumeration_error os name s err Herr).
Qed.

Lemma updateLoop_enumeration_fails os names :
  Forall (fun name => utf8.ValidString name = true) names ->
  forall i s,
    (forall j, (j < length names)%nat -> exists err, Processes (os (i + j)%nat) = Err err) ->
    exists s',
      updateLoop os i names s = Continue s' /\
      (forall name, name ∈ names -> zeroed s' name) /\
      lastUpdate s' = lastUpdate s /\
      stdout s' = stdout s ++
        map (fun j => Text ("Error getting processes: "
                            ++ enumerationError (os j) ++ nl))
            (seq i (length names)).
Proof.
  induction 1 as [| n rest Hn _ IH]; intros i s Hfail.
  - exists s. cbn. rewrite app_nil_r. split_and!; try done.
    intros name Hin. by apply elem_of_nil in Hin.
  - destruct (Hfail 0%nat) as [err Herr]; [cbn; lia|].
    rewrite Nat.add_0_r in Herr.
    pose proof (iteration_enumeration_error (os i) n s err Herr Hn) as Hit.
    set (s1 := withPid n float64_zero _) in Hit.
    destruct (IH (S i) s1) as (s' & Hloop & Hz & Hl & Hout).
    { intros j Hj. replace (S i + j)%nat with (i + S j)%nat by lia.
      apply Hfail. cbn. lia. }
    exists s'. split; [cbn [updateLoop]; by rewrite Hit|].
    split; [| split].
    + intros name Hin. destruct (decide (name ∈ rest)) as [Hr | Hr]; [by apply Hz|].
      apply elem_of_cons in Hin as [-> | Hin]; [| done].
      pose proof (updateLoop_frame os rest n Hr (S i) s1) as Hfr.
      rewrite Hloop in Hfr. cbn [state_of] in Hfr.
      unfold zeroed. rewrite (entryAt_gauges _ _ _ Hfr).
      apply zeroed_after_not_found.
    + by rewrite Hl.
    + rewrite Hout. subst s1. unfold_store. cbn [length seq map].
      unfold enumerationError at 2. rewrite Herr. by rewrite <- app_assoc.
Qed.

(** C7 (as stated, refuted): the process table cannot be read and the one
    configured name is the byte 0xFF, which is not valid UTF-8. Resolution
    answers 0, and the zeroing of the cpu gauge panics: the pass does not
    run to its end and the name has no gauge. *)
Lemma C7_enumeration_failure_with_invalid_name_crashes :
  let f := updateLoop (fun _ => enumFails (sec 5)) 0 [Edge.badName] init in
  Processes (enumFails (sec 5)) = Err "permission denied" /\
  utf8.ValidString Edge.badName = false /\
  crashed f = true /\
  gaugesAt (state_of f) Edge.badName = (None, None, None) /\
  ~ zeroed (state_of f) Edge.badName.
Proof.
  vm_compute. split_and!; try reflexivity. discriminate.
Qed.

(** C7 (amended): on a tick on which every enumeration of the process
    table fails, resolution answers 0 for every configured name; when the
    configured names are valid UTF-8, each failure is printed and the pass
    runs to its end (nothing is fatal), and every configured name has its
    three gauges at 0 after it. No timestamp is written, so the next tick
    meets the staleness state it would have met anyway. *)
Theorem C7_enumeration_failure_zeroes_every_name os names s :
  (forall i, (i < length names)%nat -> exists err, Processes (os i) = Err err) ->
  Forall (fun name => utf8.ValidString name = true) names ->
  (forall i, (i < length names)%nat -> forall name, resolve (os i) name = 0) /\
  exists s',
    updateLoop os 0 names s = Continue s' /\
    updateMetrics os names s = s' /\
    (forall name, name ∈ names -> zeroed s' name) /\
    lastUpdate s' = lastUpdate s /\
    stdout s' = stdout s ++
      map (fun i => Text ("Error getting processes: "
                          ++ enumerationError (os i) ++ nl))
          (seq 0 (length names)).
Proof.
  intros Hfail Hvalid. split.
  - intros i Hi name. destruct (Hfail i Hi) as [err Herr].
    unfold resolve. by rewrite (getPID_enumeration_error _ _ _ err Herr).
  - destruct (updateLoop_enumeration_fails os names Hvalid 0%nat s Hfail)
      as (s' & Hloop & Hz & Hl & Hout).
    exists s'. unfold updateMetrics. rewrite Hloop. by split_and!.
Qed.

Lemma C7_enumeration_failure_zeroes_every_name_witness :
  (forall i, (i < length ["a"; "b"]%string)%nat ->
     exists err, Processes (enumFails (sec 10)) = Err err) /\
  Forall (fun name => utf8.ValidString name = true) ["a"; "b"]%string /\
  zeroed (updateMetrics (fun _ => enumFails (sec 10)) ["a"; "b"]%string sampled) "a".
Proof.
  assert (forall i, (i < length ["a"; "b"]%string)%nat ->
            exists err, Processes (enumFails (sec 10)) = Err err) as Hfail.
  { intros i _. by eexists. }
  assert (Forall (fun name => utf8.ValidString name = true) ["a"; "b"]%string)
    as Hvalid.
  { repeat constructor. }
  split; [exact Hfail|]. split; [exact Hvalid|].
  destruct (C7_enumeration_failure_zeroes_every_name
              (fun _ => enumFails (sec 10)) ["a"; "b"]%string sampled Hfail Hvalid)
    as (_ & s' & _ & -> & Hz & _).
  apply Hz. apply elem_of_cons. by left.
Defined.


(** ** Entries of the configured names *)





(** An iteration that does not go on to the next name leaves every
    timestamp as it was. *)
Lemma iteration_stops_stamp os name s :
  (forall s', iteration os name s <> Continue s') ->
  lastUpdate (state_of (iteration os name s)) = lastUpdate s.
Proof.
  intros Hstop.
  destruct (iteration_cases os name s)
    as [(_ & _ & E) | [(_ & _ & E) | [(_ & f & _ & E)
        | [(_ & _ & c & x & E) | (_ & E)]]]];
    try (by destruct (Hstop _ E)); rewrite E; cbn [state_of].
  - by destruct f.
  - by destruct (getPID_store os name s) as (_ & _ & _ & ->).
Qed.










(** ** The reporter *)

Lemma printFamily_stdout ms :
  forall s,
    stdout (printFamily ms s) = stdout s ++ map metricLine (List.filter printed ms).
Proof.
  induction ms as [| m rest IH]; intros s; cbn [printFamily List.filter map].
  - by rewrite app_nil_r.
  - rewrite IH. destruct (printed m); [| done].
    unfold print; cbn [stdout map]. by rewrite <- app_assoc.
Qed.

Lemma printFamilies_stdout mfs :
  forall s,
    stdout (printFamilies mfs s)
      = stdout s ++ map metricLine (List.filter printed (allSeries mfs)).
Proof.
  unfold allSeries.
  induction mfs as [| mf rest IH]; intros s; cbn [printFamilies map concat].
  - by rewrite app_nil_r.
  - rewrite IH, printFamily_stdout, List.filter_app, map_app.
    by rewrite <- app_assoc.
Qed.

(** Every series of the three process gauges passes the reporter's test:
    its one label is named [process]. *)
Lemma series_printed name v : printed (series name v) = true.
Proof. reflexivity. Qed.

(** A series without label does not pass it. *)
Lemma unlabelled_not_printed g :
  printed {| dto.Label := []; dto.Gauge := g |} = false.
Proof. reflexivity. Qed.

(** C9 (as stated, refuted): with the cpu gauge of [a], [go_info] and
    [process_open_fds] gathered, the reporter prints [go_info], a series of
    the [go_] namespace, and does not print [process_open_fds], which is
    outside it. *)
Lemma C9_report_differs_from_namespace_filter :
  stdout (printMetrics (Ok gathered) init)
    = [metricLine cpuOfA; metricLine goInfo; separator] /\
  specifiedReport gathered
    = [metricLine cpuOfA; metricLine openFds; separator] /\
  stdout (printMetrics (Ok gathered) init) <> specifiedReport gathered.
Proof.
  vm_compute. split_and!; try reflexivity. discriminate.
Qed.

(** C9 (amended): a reporter tick whose gathering succeeds prints one
    name-and-value line for each gathered series that has a label and whose
    first label's name does not start with [go_], in gathered order, then
    one separator line, and changes nothing else; every series of the three
    process gauges is among the printed ones. *)
Theorem C9_report_filters_on_first_label mfs s :
  let s' := printMetrics (Ok mfs) s in
  stdout s' = stdout s
              ++ map metricLine (List.filter printed (allSeries mfs))
              ++ [separator] /\
  (forall m, printed m = true <->
     exists l ls, dto.Label m = l :: ls /\ HasPrefix (dto.Name l) "go_" = false) /\
  (forall name v, printed (series name v) = true) /\
  entryAt s' = entryAt s.
Proof.
  cbn zeta. split_and!.
  - cbn [printMetrics]. unfold print; cbn [stdout].
    by rewrite printFamilies_stdout, <- app_assoc.
  - intros m. unfold printed. destruct (dto.Label m) as [| l ls].
    + split; [done | by intros (l & ls & ? & _)].
    + rewrite negb_true_iff. split.
      * intros H. by exists l, ls.
      * by intros (l' & ls' & [= <- <-] & H).
  - apply series_printed.
  - destruct (printMetrics_store (Ok mfs) s) as (Hc & Hm & Hp & Hl).
    unfold entryAt. by rewrite Hc, Hm, Hp, Hl.
Qed.

(** ** Entries are never removed *)

Lemma snapshot_lookup (vec : gmap string float64) name v :
  vec !! name = Some v -> series name v ∈ snapshot vec.
Proof.
  intros Hv. unfold snapshot.
  apply (list_elem_of_fmap_2 (fun kv : string * float64 => series kv.1 kv.2)
           (map_to_list vec) (name, v)).
  by apply elem_of_map_to_list.
Qed.

Lemma visible_entry (vec vec' : gmap string float64) name :
  (is_Some (vec !! name) -> is_Some (vec' !! name)) ->
  is_Some (vec !! name) ->
  exists v, vec' !! name = Some v /\ series name v ∈ snapshot vec' /\
            printed (series name v) = true.
Proof.
  intros Hk Hs. destruct (Hk Hs) as [v Hv].
  exists v. split_and!; [done | by apply snapshot_lookup | apply series_printed].
Qed.

(** C10: whatever update and reporter passes the program goes through, a
    cpu, mem or pid gauge that exists for a name exists for it afterwards:
    the store holds a value for it, the snapshot of the vector has its
    series, and the reporter's test lets that series through. *)
Theorem C10_gauge_entries_are_never_removed names acts s name :
  let s' := run names acts s in
  (is_Some (cpuUsage s !! name) ->
   exists v, cpuUsage s' !! name = Some v /\
             series name v ∈ snapshot (cpuUsage s') /\
             printed (series name v) = true) /\
  (is_Some (memUsage s !! name) ->
   exists v, memUsage s' !! name = Some v /\
             series name v ∈ snapshot (memUsage s') /\
             printed (series name v) = true) /\
  (is_Some (pidUsage s !! name) ->
   exists v, pidUsage s' !! name = Some v /\
             series name v ∈ snapshot (pidUsage s') /\
             printed (series name v) = true).
Proof.
  cbn zeta. destruct (run_keeps names acts s name) as (Kc & Km & Kp & _).
  split_and!; by apply visible_entry.
Qed.

Lemma C10_gauge_entries_are_never_removed_witness :
  is_Some (pidUsage sampled !! "a") /\
  exists v,
    pidUsage (run ["a"%string]
                [UpdateTick (fun _ => vanished (sec 10));
                 ReportTick (Ok gathered);
                 UpdateTick (fun _ => absent (sec 15))] sampled) !! "a" = Some v.
Proof.
  assert (is_Some (pidUsage sampled !! "a")) as Hs by (vm_compute; by eexists).
  split; [exact Hs|].
  destruct (C10_gauge_entries_are_never_removed ["a"%string]
              [UpdateTick (fun _ => vanished (sec 10));
               ReportTick (Ok gathered);
               UpdateTick (fun _ => absent (sec 15))] sampled "a")
    as (_ & _ & Hp).
  destruct (Hp Hs) as (v & Hv & _). by exists v.
Defined.

(** * Further properties of the code *)


(** ** What getPID answers *)

Lemma findPID_first before p after name :
  Forall (fun q => (process.Name q).1 <> name) before ->
  (process.Name p).1 = name ->
  findPID (before ++ p :: after) name = Some (int_of_int32 (process.Pid p)).
Proof.
  intros Hbefore Hp. induction Hbefore as [| q before Hq _ IH]; cbn [app findPID].
  - by rewrite (proj2 (String.eqb_eq _ _) Hp).
  - by rewrite (proj2 (String.eqb_neq _ _) Hq).
Qed.

Lemma findPID_split ps name :
  match findPID ps name with
  | Some pid =>
      exists before p after,
        ps = before ++ p :: after /\
        Forall (fun q => (process.Name q).1 <> name) before /\
        (process.Name p).1 = name /\ pid = process.Pid p
  | None => Forall (fun q => (process.Name q).1 <> name) ps
  end.
Proof.
  induction ps as [| q rest IH]; cbn [findPID]; [by constructor|].
  destruct (String.eqb_spec (process.Name q).1 name) as [Heq | Hne].
  - by exists [], q, rest.
  - destruct (findPID rest name) as [pid|].
    + destruct IH as (before & p & after & -> & Hb & Hp & ->).
      exists (q :: before), p, after. split_and!; try done. by constructor.
    + by constructor.
Qed.

(** [getPID] on a readable process table: it answers the pid of the first
    process, in enumeration order, whose name is exactly the one asked for,
    and prints nothing; when no process has that name it answers 0 and
    prints the not-found line. The store is not touched. *)
Theorem getPID_answers_first_match os ps name s :
  Processes os = Ok ps ->
  (exists before p after,
      ps = before ++ p :: after /\
      Forall (fun q => (process.Name q).1 <> name) before /\
      (process.Name p).1 = name /\
      getPID os name s = (process.Pid p, s))
  \/ (Forall (fun q => (process.Name q).1 <> name) ps /\
      getPID os name s =
        (0, print (Text ("Process with name " ++ name ++ " not found" ++ nl)) s)).
Proof.
  intros Hps. unfold getPID. rewrite Hps.
  pose proof (findPID_split ps name) as Hsplit.
  destruct (findPID ps name) as [pid|].
  - left. destruct Hsplit as (before & p & after & -> & Hb & Hp & ->).
    by exists before, p, after.
  - by right.
Qed.

(** The theorem on the table [init(3); a(0); a(7)]: the first [a] wins. *)
Lemma getPID_answers_first_match_witness :
  let os := Edge.pidZeroFirst (sec 5) in
  let ps := [Edge.other; Edge.idleA; procA] in
  Processes os = Ok ps /\
  ((exists before p after,
       ps = before ++ p :: after /\
       Forall (fun q => (process.Name q).1 <> "a"%string) before /\
       (process.Name p).1 = "a"%string /\
       getPID os "a" init = (process.Pid p, init))
   \/ (Forall (fun q => (process.Name q).1 <> "a"%string) ps /\
       getPID os "a" init =
         (0, print (Text ("Process with name " ++ "a" ++ " not found" ++ nl)) init))).
Proof.
  intros os ps. split; [reflexivity|].
  apply (getPID_answers_first_match os ps "a" init). reflexivity.
Defined.

(** A process of the name whose pid is 0, first of that name in the
    table, makes the name count as not found: the three gauges are zeroed
    (the name being valid UTF-8, which the gauge writes take), no
    timestamp is written, and nothing is printed, whatever other processes
    of that name follow it. *)
Theorem pid_zero_match_is_not_found os before p after name s :
  Processes os = Ok (before ++ p :: after) ->
  Forall (fun q => (process.Name q).1 <> name) before ->
  (process.Name p).1 = name ->
  process.Pid p = 0 ->
  utf8.ValidString name = true ->
  exists s',
    iteration os name s = Continue s' /\
    zeroed s' name /\
    stdout s' = stdout s /\
    lastUpdate s' = lastUpdate s.
Proof.
  intros Hps Hb Hp Hz Hv.
  assert (getPID os name s = (0, s)) as Hget.
  { unfold getPID. rewrite Hps, (findPID_first before p after name Hb Hp).
    unfold int_of_int32. by rewrite Hz. }
  eexists. split.
  - rewrite iteration_not_found; rewrite ?Hget; done.
  - split; [apply zeroed_after_not_found | done].
Qed.

Lemma pid_zero_match_is_not_found_witness :
  Processes (Edge.pidZeroFirst (sec 10)) = Ok ([Edge.other] ++ Edge.idleA :: [procA]) /\
  exists s',
    iteration (Edge.pidZeroFirst (sec 10)) "a" sampled = Continue s' /\
    zeroed s' "a" /\ stdout s' = stdout sampled.
Proof.
  split; [reflexivity|].
  destruct (pid_zero_match_is_not_found (Edge.pidZeroFirst (sec 10))
              [Edge.other] Edge.idleA [procA] "a" sampled)
    as (s' & Hit & Hz & Hout & _).
  - reflexivity.
  - constructor; [by vm_compute | constructor].
  - reflexivity.
  - reflexivity.
  - reflexivity.
  - by exists s'.
Defined.





(** ** Names in the store *)

Lemma entryAt_written s s' m :
  entryAt s' m = entryAt s m ->
  is_Some (cpuUsage s' !! m) \/ is_Some (memUsage s' !! m) \/
  is_Some (pidUsage s' !! m) \/ is_Some (lastUpdate s' !! m) ->
  is_Some (cpuUsage s !! m) \/ is_Some (memUsage s !! m) \/
  is_Some (pidUsage s !! m) \/ is_Some (lastUpdate s !! m).
Proof. unfold entryAt. by intros [= -> -> -> ->]. Qed.

Lemma iteration_names_valid os name s :
  written_names_are_valid s ->
  written_names_are_valid (state_of (iteration os name s)).
Proof.
  intros Hinv m Hm.
  destruct (decide (m = name)) as [-> | Hne].
  - assert (utf8.ValidString name = true \/ utf8.ValidString name = false)
      as [Hv | Hv] by (destruct (utf8.ValidString name); auto); [done|].
    apply Hinv.
    by apply (entryAt_written _ _ _ (iteration_invalid_name os name s Hv)).
  - apply Hinv. by apply (entryAt_written _ _ _ (iteration_frame os name s m Hne)).
Qed.

Lemma updateLoop_names_valid os names :
  forall i s, written_names_are_valid s ->
    written_names_are_valid (state_of (updateLoop os i names s)).
Proof.
  induction names as [| n rest IH]; intros i s Hinv; cbn [updateLoop]; [done|].
  pose proof (iteration_names_valid (os i) n s Hinv) as Hit.
  destruct (iteration (os i) n s) as [s' | s' | s']; cbn [state_of] in *;
    [by apply IH | done | done].
Qed.

Lemma init_names_valid : written_names_are_valid init.
Proof.
  intros m. cbn [init cpuUsage memUsage pidUsage lastUpdate].
  rewrite !lookup_empty. by intros [[? ?] | [[? ?] | [[? ?] | [? ?]]]].
Qed.

(** In every state the program reaches, the names that have a gauge or a
    timestamp are valid UTF-8. *)
Lemma reached_names_are_valid names acts :
  written_names_are_valid (run names acts init).
Proof.
  apply run_invariant; [| | apply init_names_valid].
  - intros os s Hinv. by apply updateLoop_names_valid.
  - intros gathered s Hinv m.
    destruct (printMetrics_store gathered s) as (-> & -> & -> & ->). apply Hinv.
Qed.

(** ** The staleness guard *)

Lemma Sub_lt_interval (c t : Z) :
  time.Sub c t < 5 * time.Second <-> c < t + 5 * time.Second.
Proof.
  unfold time.Sub, time.minDuration, time.maxDuration, time.Second. cbv zeta.
  change (2 ^ 63) with 9223372036854775808.
  repeat match goal with
         | |- context [?a <? ?b] => destruct (Z.ltb_spec a b)
         end; lia.
Qed.

(** A stamped name is due exactly when the clock has reached its
    timestamp plus five seconds; the saturation of [time.Sub] at the ends
    of the [Duration] range never changes the decision. *)
Theorem due_iff_five_seconds_elapsed os t :
  due os (Some t) = true <-> t + 5 * time.Second <= clockSince os.
Proof.
  cbn [due]. rewrite Z.leb_le.
  pose proof (Sub_lt_interval (clockSince os) t). lia.
Qed.

(** A sample that succeeds protects its name for five seconds: once a
    name that is valid UTF-8 has been sampled, any later iteration for the
    name that resolves and reads the clock less than five seconds after the
    timestamp leaves the whole state as it is, without reading the
    sampler. *)
Theorem sampled_name_is_skipped_within_interval
    os name s p cpuPercent memoryPercent :
  resolve os name <> 0 ->
  due os (lastUpdate s !! name) = true ->
  NewProcess os (int32 (resolve os name)) = Ok p ->
  CPUPercent os p = Ok cpuPercent ->
  MemoryPercent os p = Ok memoryPercent ->
  utf8.ValidString name = true ->
  exists s1,
    iteration os name s = Continue s1 /\
    lastUpdate s1 !! name = Some (clockNow os) /\
    forall os', resolve os' name <> 0 ->
      clockSince os' < clockNow os + 5 * time.Second ->
      iteration os' name s1 = Continue s1.
Proof.
  intros Hpid Hdue Hp Hc Hm Hv.
  eexists. split; [| split].
  - apply (iteration_success os name s p cpuPercent memoryPercent);
      rewrite ?getPID_resolve; done.
  - unfold_store. by rewrite lookup_insert_eq.
  - intros os' Hpid' Hclock.
    apply (iteration_fresh os' name _ (clockNow os)).
    + by rewrite getPID_resolve.
    + unfold_store. by rewrite lookup_insert_eq.
    + by apply Sub_lt_interval.
Qed.

Lemma sampled_name_is_skipped_within_interval_witness :
  resolve (healthy (sec 5)) "a" <> 0 /\
  utf8.ValidString "a" = true /\
  exists s1,
    iteration (healthy (sec 5)) "a" init = Continue s1 /\
    iteration (memFails (sec 9)) "a" s1 = Continue s1.
Proof.
  split; [by vm_compute|]. split; [reflexivity|].
  destruct (sampled_name_is_skipped_within_interval (healthy (sec 5)) "a" init
              (handle 7) (pct 12) (pct 3))
    as (s1 & Hit & _ & Hskip); try reflexivity; [by vm_compute|].
  exists s1. split; [exact Hit|].
  apply Hskip; by vm_compute.
Defined.

(** A name that is zeroed keeps the timestamp of its last sample. When it
    resolves again less than five seconds after that timestamp, it is
    skipped: its gauges stay at 0 although its process runs. The state is
    one in which the names written so far are valid UTF-8, as they are in
    every state the program reaches. *)
Theorem zeroed_name_back_within_interval_stays_zero os1 os2 name s t :
  written_names_are_valid s ->
  resolve os1 name = 0 ->
  lastUpdate s !! name = Some t ->
  resolve os2 name <> 0 ->
  clockSince os2 < t + 5 * time.Second ->
  exists s1,
    iteration os1 name s = Continue s1 /\
    iteration os2 name s1 = Continue s1 /\
    zeroed s1 name.
Proof.
  intros Hvalid Hz Ht Hpid Hclock.
  assert (utf8.ValidString name = true) as Hv.
  { apply Hvalid. do 3 right. by eexists. }
  rewrite <- (getPID_resolve os1 name s) in Hz.
  destruct (getPID_store os1 name s) as (_ & _ & _ & Hl).
  eexists. split; [by apply iteration_not_found|].
  split; [| apply zeroed_after_not_found].
  apply (iteration_fresh os2 name _ t).
  - by rewrite getPID_resolve.
  - unfold_store. by rewrite Hl.
  - by apply Sub_lt_interval.
Qed.

Lemma zeroed_name_back_within_interval_stays_zero_witness :
  written_names_are_valid sampled /\
  lastUpdate sampled !! "a" = Some (sec 5) /\
  exists s1,
    iteration (absent (sec 6)) "a" sampled = Continue s1 /\
    iteration (healthy (sec 7)) "a" s1 = Continue s1 /\
    zeroed s1 "a".
Proof.
  assert (written_names_are_valid sampled) as Hvalid.
  { apply updateLoop_names_valid, init_names_valid. }
  split; [exact Hvalid|]. split; [by vm_compute|].
  apply (zeroed_name_back_within_interval_stays_zero
           (absent (sec 6)) (healthy (sec 7)) "a" sampled (sec 5) Hvalid);
    by vm_compute.
Defined.

(** ** When a pass ends early *)

(** An iteration returns only from a failed read of a resolved, due name. *)
Lemma iteration_return os name s s' :
  iteration os name s = Return s' ->
  exists f,
    resolve os name <> 0 /\
    due os (lastUpdate s !! name) = true /\
    sampleFailure os (resolve os name) = Some f /\
    s' = print (failureLine f)
           match f with
           | MemFailed cpuPercent _ => withCpu name cpuPercent s
           | _ => s
           end.
Proof.
  intros Hit. rewrite <- (getPID_resolve os name s).
  destruct (Z.eq_dec (getPID os name s).1 0) as [Hz | Hnz].
  { destruct (utf8.ValidString name) eqn:Hv.
    - by rewrite iteration_not_found in Hit.
    - rewrite iteration_panic in Hit; [done | done | by left]. }
  destruct (due os (lastUpdate s !! name)) eqn:Hdue.
  2: { destruct (lastUpdate s !! name) as [t|] eqn:Ht; [| done].
       cbn [due] in Hdue. apply Z.leb_gt in Hdue.
       by rewrite (iteration_fresh os name s t) in Hit. }
  destruct (NewProcess os (int32 (getPID os name s).1)) as [p | e] eqn:Hp.
  2: { assert (sampleFailure os (getPID os name s).1 = Some (LookupFailed e)) as Hf.
       { unfold sampleFailure. by rewrite Hp. }
       rewrite (iteration_failure os name s _ Hnz Hdue Hf) in Hit by done.
       eexists. by injection Hit as <-. }
  destruct (CPUPercent os p) as [c | e] eqn:Hc.
  2: { assert (sampleFailure os (getPID os name s).1 = Some (CpuFailed e)) as Hf.
       { unfold sampleFailure. by rewrite Hp, Hc. }
       rewrite (iteration_failure os name s _ Hnz Hdue Hf) in Hit by done.
       eexists. by injection Hit as <-. }
  destruct (utf8.ValidString name) eqn:Hv.
  2: { rewrite iteration_panic in Hit; [done | done |].
       right. split_and!; [done | done |]. by exists p, c. }
  destruct (MemoryPercent os p) as [m | e] eqn:Hm.
  - by rewrite (iteration_success os name s p c m) in Hit.
  - assert (sampleFailure os (getPID os name s).1 = Some (MemFailed c e)) as Hf.
    { unfold sampleFailure. by rewrite Hp, Hc, Hm. }
    rewrite (iteration_failure os name s _ Hnz Hdue Hf) in Hit by done.
    eexists. by injection Hit as <-.
Qed.

(** An iteration panics only for a name that is not valid UTF-8. *)
Lemma iteration_crash os name s s' :
  iteration os name s = Panic s' -> utf8.ValidString name = false.
Proof.
  intros Hit.
  destruct (iteration_cases os name s)
    as [(_ & _ & E) | [(_ & _ & E) | [(_ & f & _ & E)
        | [(_ & _ & c & x & E) | (Hv & _)]]]];
    [congruence | congruence | congruence | congruence | done].
Qed.

Lemma updateLoop_completes os names :
  Forall (fun name => utf8.ValidString name = true) names ->
  forall k s,
    (forall j name, names !! j = Some name ->
       sampleFailure (os (k + j)%nat) (resolve (os (k + j)%nat) name) = None) ->
    exists s', updateLoop os k names s = Continue s'.
Proof.
  induction 1 as [| n rest Hn _ IH]; intros k s Hok; cbn [updateLoop].
  - by exists s.
  - destruct (iteration (os k) n s) as [s1 | s1 | s1] eqn:Hit.
    + apply IH. intros j name Hj.
      replace (S k + j)%nat with (k + S j)%nat by lia. by apply Hok.
    + destruct (iteration_return _ _ _ _ Hit) as (f & _ & _ & Hf & _).
      specialize (Hok 0%nat n eq_refl). rewrite Nat.add_0_r in Hok. congruence.
    + pose proof (iteration_crash _ _ _ _ Hit). congruence.
Qed.

Lemma updateLoop_return os names :
  forall k s s',
    updateLoop os k names s = Return s' ->
    exists j name f,
      names !! j = Some name /\
      resolve (os (k + j)%nat) name <> 0 /\
      sampleFailure (os (k + j)%nat) (resolve (os (k + j)%nat) name) = Some f /\
      last (stdout s') = Some (failureLine f) /\
      forall m, m ∉ take (S j) names -> entryAt s' m = entryAt s m.
Proof.
  induction names as [| n rest IH]; intros k s s' Hloop; cbn [updateLoop] in Hloop;
    [done|].
  destruct (iteration (os k) n s) as [s1 | s1 | s1] eqn:Hit; [| | done].
  - destruct (IH (S k) s1 s' Hloop) as (j & name & f & Hj & Hpid & Hf & Hlast & Hfr).
    exists (S j), name, f.
    replace (k + S j)%nat with (S k + j)%nat by lia.
    split_and!; try done.
    intros m Hm. cbn [take] in Hm. apply not_elem_of_cons in Hm as [Hne Hm].
    rewrite (Hfr m Hm).
    pose proof (iteration_frame (os k) n s m Hne) as Hfr1.
    by rewrite Hit in Hfr1.
  - simplify_eq.
    destruct (iteration_return _ _ _ _ Hit) as (f & Hpid & _ & Hf & ->).
    exists 0%nat, n, f. rewrite Nat.add_0_r.
    split_and!; try done.
    + unfold print; cbn [stdout]. apply last_snoc.
    + intros m Hm. cbn [take] in Hm. apply not_elem_of_cons in Hm as [Hne _].
      pose proof (iteration_frame (os k) n s m Hne) as Hfr1.
      by rewrite Hit in Hfr1.
Qed.

(** A pass over names that are valid UTF-8 in which no sample could fail
    runs through all the names. *)
Theorem pass_without_failing_read_runs_through os names s :
  Forall (fun name => utf8.ValidString name = true) names ->
  (forall i name, names !! i = Some name ->
     sampleFailure (os i) (resolve (os i) name) = None) ->
  exists s', updateLoop os 0 names s = Continue s' /\ updateMetrics os names s = s'.
Proof.
  intros Hvalid Hok.
  destruct (updateLoop_completes os names Hvalid 0%nat s Hok) as [s' Hloop].
  exists s'. unfold updateMetrics. by rewrite Hloop.
Qed.

Lemma pass_without_failing_read_runs_through_witness :
  Forall (fun name => utf8.ValidString name = true) ["b"; "a"]%string /\
  exists s',
    updateLoop (fun _ => healthy (sec 5)) 0 ["b"; "a"]%string init = Continue s'.
Proof.
  assert (Forall (fun name => utf8.ValidString name = true) ["b"; "a"]%string)
    as Hvalid by (repeat constructor).
  split; [exact Hvalid|].
  destruct (pass_without_failing_read_runs_through
              (fun _ => healthy (sec 5)) ["b"; "a"]%string init Hvalid)
    as (s' & Hloop & _).
  - intros [| [| i]] name Hi; cbn in Hi; simplify_eq; by vm_compute.
  - by exists s'.
Defined.

(** A pass returns before its end only at a name that resolved and whose
    read failed; the last line on standard output is that failure's line,
    and no entry of a name that is not among the names up to that one has
    changed. *)
Theorem early_return_comes_from_a_failed_read os names s s' :
  updateLoop os 0 names s = Return s' ->
  exists i name f,
    names !! i = Some name /\
    resolve (os i) name <> 0 /\
    sampleFailure (os i) (resolve (os i) name) = Some f /\
    last (stdout s') = Some (failureLine f) /\
    forall m, m ∉ take (S i) names -> entryAt s' m = entryAt s m.
Proof. apply (updateLoop_return os names 0%nat). Qed.

Lemma early_return_comes_from_a_failed_read_witness :
  exists i name f,
    ["a"; "b"]%string !! i = Some name /\
    sampleFailure (memFails (sec 5)) (resolve (memFails (sec 5)) name) = Some f.
Proof.
  destruct (early_return_comes_from_a_failed_read
              (fun _ => memFails (sec 5)) ["a"; "b"]%string init
              (state_of (updateLoop (fun _ => memFails (sec 5)) 0
                           ["a"; "b"]%string init)))
    as (i & name & f & Hi & _ & Hf & _); [by vm_compute|].
  by exists i, name, f.
Defined.

(** ** What a run keeps true *)

(** Only configured names are ever written: over any sequence of update
    and reporter passes, a name that is not in the list given to the
    program has after it the entries it had before it; started from the
    empty store it has none. *)
Theorem unconfigured_name_is_never_written names acts s m :
  m ∉ names ->
  entryAt (run names acts s) m = entryAt s m /\
  entryAt (run names acts init) m = noEntry.
Proof.
  intros Hm.
  assert (forall s0, entryAt (run names acts s0) m = entryAt s0 m) as Hrun.
  { intros s0.
    apply (run_invariant (fun s' => entryAt s' m = entryAt s0 m)); [| | done].
    - intros os s' <-. by apply updateLoop_frame.
    - intros gathered s' <-.
      destruct (printMetrics_store gathered s') as (Hc & Hm' & Hp & Hl).
      unfold entryAt. by rewrite Hc, Hm', Hp, Hl. }
  split; [apply Hrun|]. by rewrite Hrun.
Qed.

Lemma unconfigured_name_is_never_written_witness :
  entryAt (run ["a"%string]
             [UpdateTick (fun _ => healthy (sec 5)); ReportTick (Ok gathered)]
             init) "init" = noEntry.
Proof.
  apply (unconfigured_name_is_never_written ["a"%string]
           [UpdateTick (fun _ => healthy (sec 5)); ReportTick (Ok gathered)]
           init "init").
  intros Hin. apply list_elem_of_singleton in Hin. discriminate.
Defined.

Lemma iteration_created_in_order os name s :
  created_in_order s -> created_in_order (state_of (iteration os name s)).
Proof.
  intros Hinv m. destruct (Hinv m) as (Hlp & Hpm & Hmc).
  destruct (decide (m = name)) as [-> | Hne].
  - destruct (iteration_cases os name s)
      as [(_ & _ & ->) | [(_ & _ & ->) | [(_ & f & _ & ->)
          | [(_ & _ & c & x & ->) | (_ & ->)]]]];
      cbn [state_of].
    + unfold_store. rewrite !lookup_insert_eq. split_and!; by eexists.
    + done.
    + destruct f; unfold_store; [done | done |].
      rewrite lookup_insert_eq. split_and!; [done | done | by eexists].
    + unfold_store. rewrite !lookup_insert_eq. split_and!; by eexists.
    + by destruct (getPID_store os name s) as (-> & -> & -> & ->).
  - pose proof (iteration_frame os name s m Hne) as Hfr.
    unfold entryAt in Hfr. injection Hfr as -> -> -> ->. done.
Qed.

Lemma updateLoop_created_in_order os names :
  forall i s, created_in_order s ->
    created_in_order (state_of (updateLoop os i names s)).
Proof.
  induction names as [| n rest IH]; intros i s Hinv; cbn [updateLoop]; [done|].
  pose proof (iteration_created_in_order (os i) n s Hinv) as Hit.
  destruct (iteration (os i) n s) as [s' | s' | s']; cbn [state_of] in *;
    [by apply IH | done | done].
Qed.

(** In every state the program reaches, the entries of a name exist in
    the order the code creates them: a name with a timestamp has a pid
    gauge, a name with a pid gauge has a mem gauge, and a name with a mem
    gauge has a cpu gauge. *)
Theorem entries_exist_in_creation_order names acts :
  created_in_order (run names acts init).
Proof.
  apply run_invariant.
  - intros os s Hinv. by apply updateLoop_created_in_order.
  - intros gathered s Hinv m.
    destruct (printMetrics_store gathered s) as (-> & -> & -> & ->).
    apply Hinv.
  - intros m. cbn [init lastUpdate pidUsage memUsage cpuUsage].
    rewrite !lookup_empty. split_and!; by intros [? ?].
Qed.

Lemma updateLoop_never_resolved os name names :
  forall k s,
    (forall j, names !! j = Some name -> resolve (os (k + j)%nat) name = 0) ->
    (gaugesAt s name = (None, None, None) \/ zeroed s name) ->
    lastUpdate s !! name = None ->
    let s' := state_of (updateLoop os k names s) in
    (gaugesAt s' name = (None, None, None) \/ zeroed s' name) /\
    lastUpdate s' !! name = None.
Proof.
  induction names as [| n rest IH]; intros k s Hnever Hg Hl; cbn [updateLoop];
    [done|].
  assert (forall j, rest !! j = Some name -> resolve (os (S k + j)%nat) name = 0)
    as Hrest.
  { intros j Hj. replace (S k + j)%nat with (k + S j)%nat by lia.
    by apply Hnever. }
  destruct (decide (n = name)) as [-> | Hne].
  - specialize (Hnever 0%nat eq_refl). rewrite Nat.add_0_r in Hnever.
    rewrite <- (getPID_resolve (os k) name s) in Hnever.
    destruct (getPID_store (os k) name s) as (Hc' & Hm' & Hp' & Hl').
    destruct (utf8.ValidString name) eqn:Hv.
    + rewrite (iteration_not_found (os k) name s Hnever Hv).
      apply IH; [done | right; apply zeroed_after_not_found |].
      unfold_store. by rewrite Hl'.
    + rewrite (iteration_panic (os k) name s Hv) by (by left).
      cbn [state_of]. unfold zeroed, gaugesAt in *.
      by rewrite Hc', Hm', Hp', Hl'.
  - assert (name <> n) as Hne' by done.
    pose proof (iteration_frame (os k) n s name Hne') as Hfr.
    pose proof (entryAt_gauges _ _ _ Hfr) as Hfg.
    pose proof (entryAt_stamp _ _ _ Hfr) as Hfl.
    destruct (iteration (os k) n s) as [s1 | s1 | s1]; cbn [state_of] in *.
    + apply IH; [done | unfold zeroed; by rewrite Hfg | by rewrite Hfl].
    + unfold zeroed. by rewrite Hfg, Hfl.
    + unfold zeroed. by rewrite Hfg, Hfl.
Qed.

(** A configured name that resolves to 0 at every lookup of a run has,
    after the run, either no gauge at all (no pass has reached it) or its
    three gauges at 0, never a mix, and no timestamp. *)
Theorem never_resolved_name_is_absent_or_zero names name acts :
  Forall (neverResolves names name) acts ->
  let s := run names acts init in
  (gaugesAt s name = (None, None, None) \/ zeroed s name) /\
  lastUpdate s !! name = None.
Proof.
  intros Hnever.
  assert (forall s0,
            (gaugesAt s0 name = (None, None, None) \/ zeroed s0 name) ->
            lastUpdate s0 !! name = None ->
            (gaugesAt (run names acts s0) name = (None, None, None)
             \/ zeroed (run names acts s0) name) /\
            lastUpdate (run names acts s0) !! name = None) as Hrun.
  { induction Hnever as [| a rest Ha _ IH]; intros s0 Hg Hl; [done|].
    destruct a as [os | gathered]; cbn [run neverResolves] in *.
    - destruct (updateLoop_never_resolved os name names 0%nat s0 Ha Hg Hl)
        as [Hg' Hl'].
      destruct (crashed (updateLoop os 0 names s0)); [done | by apply IH].
    - destruct (printMetrics_store gathered s0) as (Hc & Hm & Hp & Hl').
      apply IH; unfold zeroed, gaugesAt in *; by rewrite ?Hc, ?Hm, ?Hp, ?Hl'. }
  apply Hrun; [by left | done].
Qed.

Lemma never_resolved_name_is_absent_or_zero_witness :
  zeroed (run ["a"; "b"]%string
            [UpdateTick (fun _ => healthy (sec 5)); ReportTick (Ok gathered);
             UpdateTick (fun _ => healthy (sec 10))] init) "b".
Proof.
  destruct (never_resolved_name_is_absent_or_zero ["a"; "b"]%string "b"
              [UpdateTick (fun _ => healthy (sec 5)); ReportTick (Ok gathered);
               UpdateTick (fun _ => healthy (sec 10))])
    as [[Hnone | Hz] _].
  - repeat constructor; intros i _; by vm_compute.
  - by vm_compute in Hnone.
  - exact Hz.
Defined.

(** ** One name at a time *)

(** What an iteration does for its name depends on the state only through
    the entries of that name: how it ends and what it leaves for the
    name. *)
Lemma iteration_local os name s1 s2 :
  entryAt s1 name = entryAt s2 name ->
  entryAt (state_of (iteration os name s1)) name
  = entryAt (state_of (iteration os name s2)) name /\
  continues (iteration os name s1) = continues (iteration os name s2).
Proof.
  intros Heq. pose proof (entryAt_stamp _ _ _ Heq) as Hl.
  unfold entryAt in Heq. injection Heq as Hc Hm Hp _.
  unfold iteration, getPID, setCpu, setMem, setPid, validLabelValue.
  destruct (utf8.ValidString name);
    (destruct (Processes os) as [ps | e];
       [destruct (findPID ps name) as [pid|] |]);
    cbn [fst snd Z.eqb andThen state_of continues];
    try (unfold_store; by rewrite ?lookup_insert_eq, ?Hc, ?Hm, ?Hp, ?Hl).
  - destruct (pid =? 0); cbn [andThen state_of continues].
    { unfold_store. by rewrite !lookup_insert_eq, Hl. }
    rewrite Hl. destruct (due os (lastUpdate s2 !! name)).
    2: { cbn [state_of continues]. unfold_store. by rewrite Hc, Hm, Hp, Hl. }
    destruct (NewProcess os (int32 pid)) as [p | e]; cbn [state_of continues].
    2: { unfold_store. by rewrite Hc, Hm, Hp, Hl. }
    destruct (CPUPercent os p) as [c | e]; cbn [andThen state_of continues].
    2: { unfold_store. by rewrite Hc, Hm, Hp, Hl. }
    destruct (MemoryPercent os p) as [m | e]; cbn [andThen state_of continues];
      unfold_store; rewrite !lookup_insert_eq; by rewrite ?Hm, ?Hp, ?Hl.
  - destruct (pid =? 0); cbn [andThen state_of continues].
    { unfold_store. by rewrite Hc, Hm, Hp, Hl. }
    rewrite Hl. destruct (due os (lastUpdate s2 !! name)).
    2: { cbn [state_of continues]. unfold_store. by rewrite Hc, Hm, Hp, Hl. }
    destruct (NewProcess os (int32 pid)) as [p | e]; cbn [state_of continues].
    2: { unfold_store. by rewrite Hc, Hm, Hp, Hl. }
    destruct (CPUPercent os p) as [c | e]; cbn [andThen state_of continues];
      unfold_store; by rewrite Hc, Hm, Hp, Hl.
Qed.

Lemma updateLoop_one_name os name names :
  NoDup names ->
  forall k s s1 j,
    updateLoop os k names s = Continue s1 ->
    names !! j = Some name ->
    entryAt s1 name = entryAt (state_of (iteration (os (k + j)%nat) name s)) name /\
    continues (iteration (os (k + j)%nat) name s) = true.
Proof.
  induction 1 as [| n rest Hn Hnd IH]; intros k s s1 j Hloop Hj; [done|].
  cbn [updateLoop] in Hloop.
  destruct (iteration (os k) n s) as [s' | s' | s'] eqn:Hit; [| done | done].
  destruct j as [| j]; cbn in Hj.
  - simplify_eq. rewrite Nat.add_0_r, Hit. cbn [state_of continues].
    pose proof (updateLoop_frame os rest name Hn (S k) s') as Hfr.
    by rewrite Hloop in Hfr.
  - assert (name <> n) as Hne.
    { intros ->. apply Hn. by eapply list_elem_of_lookup_2. }
    pose proof (iteration_frame (os k) n s name Hne) as Hfr.
    rewrite Hit in Hfr. cbn [state_of] in Hfr.
    destruct (IH (S k) s' s1 j Hloop Hj) as [Hentry Hcont].
    replace (S k + j)%nat with (k + S j)%nat in * by lia.
    destruct (iteration_local (os (k + S j)%nat) name s' s Hfr) as [He Hc].
    by rewrite Hentry, He, <- Hc.
Qed.

(** In a pass over distinct names that runs through, each name ends with
    what its own iteration alone gives from the state before the pass: the
    other names have no influence on it. *)
Theorem full_pass_treats_each_name_on_its_own os names s s1 i name :
  NoDup names ->
  updateLoop os 0 names s = Continue s1 ->
  names !! i = Some name ->
  entryAt s1 name = entryAt (state_of (iteration (os i) name s)) name.
Proof.
  intros Hnd Hloop Hi.
  by destruct (updateLoop_one_name os name names Hnd 0%nat s s1 i Hloop Hi).
Qed.

Lemma full_pass_treats_each_name_on_its_own_witness :
  entryAt (updateMetrics (fun _ => healthy (sec 5)) ["b"; "a"]%string init) "a"
  = entryAt (state_of (iteration (healthy (sec 5)) "a" init)) "a".
Proof.
  apply (full_pass_treats_each_name_on_its_own
           (fun _ => healthy (sec 5)) ["b"; "a"]%string init _ 1%nat "a").
  - apply NoDup_cons. split; [| apply NoDup_singleton].
    intros Hin. apply list_elem_of_singleton in Hin. discriminate.
  - by vm_compute.
  - reflexivity.
Defined.

(** ** Standard output of a pass *)

Lemma iteration_prints_at_most_one_line os name s :
  exists ls,
    stdout (state_of (iteration os name s)) = stdout s ++ ls /\
    (length ls <= 1)%nat.
Proof.
  assert (forall l, exists ls, stdout s ++ [l] = stdout s ++ ls /\ (length ls <= 1)%nat)
    as Hone.
  { intros l. exists [l]. split; [done | cbn; lia]. }
  assert (exists ls, stdout s = stdout s ++ ls /\ (length ls <= 1)%nat) as Hnone.
  { exists []. split; [by rewrite app_nil_r | cbn; lia]. }
  destruct (iteration_cases os name s)
    as [(Hz & _ & ->) | [(_ & _ & ->) | [(_ & f & _ & ->)
        | [(_ & _ & c & x & ->) | (_ & ->)]]]];
    cbn [state_of]; unfold_store; try done.
  - unfold getPID.
    destruct (Processes os) as [ps | e]; [destruct (findPID ps name) |];
      cbn [snd]; unfold_store; done.
  - by destruct f.
  - unfold getPID.
    destruct (Processes os) as [ps | e]; [destruct (findPID ps name) |];
      cbn [snd]; unfold_store; done.
Qed.

Lemma updateLoop_prints os names :
  forall k s,
    exists ls,
      stdout (state_of (updateLoop os k names s)) = stdout s ++ ls /\
      (length ls <= length names)%nat.
Proof.
  induction names as [| n rest IH]; intros k s; cbn [updateLoop].
  - exists []. split; [by rewrite app_nil_r | cbn; lia].
  - destruct (iteration_prints_at_most_one_line (os k) n s) as (l1 & Hout1 & Hlen1).
    destruct (iteration (os k) n s) as [s' | s' | s']; cbn [state_of] in *.
    + destruct (IH (S k) s') as (l2 & Hout2 & Hlen2).
      exists (l1 ++ l2). rewrite Hout2, Hout1, <- app_assoc.
      split; [done|]. rewrite length_app. cbn [length]. lia.
    + exists l1. split; [done|]. cbn [length]. lia.
    + exists l1. split; [done|]. cbn [length]. lia.
Qed.

(** An update pass only appends to standard output, at most one line for
    each configured name; a successful sample and a skipped name print
    nothing. *)
Theorem update_pass_prints_at_most_one_line_per_name os names s :
  exists ls,
    stdout (updateMetrics os names s) = stdout s ++ ls /\
    (length ls <= length names)%nat.
Proof. apply updateLoop_prints. Qed.

(** ** The sample that is recorded *)

(** In a pass over distinct names that runs through, a name that resolves
    to a pid, is due, and whose three reads succeed ends with exactly that
    sample: the cpu reading, the memory reading widened to [float64], the
    pid as a [float64], and the clock of that iteration as timestamp. *)
Theorem full_pass_records_the_sample
    os names s s1 i name p cpuPercent memoryPercent :
  NoDup names ->
  updateLoop os 0 names s = Continue s1 ->
  names !! i = Some name ->
  resolve (os i) name <> 0 ->
  due (os i) (lastUpdate s !! name) = true ->
  NewProcess (os i) (int32 (resolve (os i) name)) = Ok p ->
  CPUPercent (os i) p = Ok cpuPercent ->
  MemoryPercent (os i) p = Ok memoryPercent ->
  entryAt s1 name =
    (Some cpuPercent, Some (float64_of_float32 memoryPercent),
     Some (float64_of_int (resolve (os i) name)), Some (clockNow (os i))).
Proof.
  intros Hnd Hloop Hi Hpid Hdue Hp Hc Hm.
  destruct (updateLoop_one_name os name names Hnd 0%nat s s1 i Hloop Hi)
    as [-> Hcont].
  cbn [Nat.add] in *.
  assert (utf8.ValidString name = true) as Hv.
  { destruct (utf8.ValidString name) eqn:Hv; [done|].
    rewrite (iteration_panic (os i) name s Hv) in Hcont; [done|].
    right. rewrite getPID_resolve. split_and!; [done | done |]. by exists p, cpuPercent. }
  rewrite (iteration_success (os i) name s p cpuPercent memoryPercent);
    rewrite ?getPID_resolve; try done.
  cbn [state_of]. unfold_store. by rewrite !lookup_insert_eq.
Qed.

Lemma full_pass_records_the_sample_witness :
  entryAt (updateMetrics (fun _ => healthy (sec 5)) ["b"; "a"]%string init) "a"
  = (Some (pct 12), Some (pct 3), Some (float64_of_int 7), Some (sec 5)).
Proof.
  apply (full_pass_records_the_sample
           (fun _ => healthy (sec 5)) ["b"; "a"]%string init _ 1%nat "a"
           (handle 7) (pct 12) (pct 3));
    first [ reflexivity | by vm_compute | idtac ].
  apply NoDup_cons. split; [| apply NoDup_singleton].
  intros Hin. apply list_elem_of_singleton in Hin. discriminate.
Defined.

(** An iteration writes a timestamp only together with a whole sample:
    either it leaves every timestamp as it was, or the three reads have
    succeeded, the timestamp of its name is the clock just read, and the
    three gauges of the name hold that sample. *)
Theorem timestamp_is_written_only_with_a_sample os name s :
  let s' := state_of (iteration os name s) in
  lastUpdate s' = lastUpdate s
  \/ exists p cpuPercent memoryPercent,
       NewProcess os (int32 (resolve os name)) = Ok p /\
       CPUPercent os p = Ok cpuPercent /\
       MemoryPercent os p = Ok memoryPercent /\
       lastUpdate s' = <[name := clockNow os]> (lastUpdate s) /\
       gaugesAt s' name =
         (Some cpuPercent, Some (float64_of_float32 memoryPercent),
          Some (float64_of_int (resolve os name))).
Proof.
  cbn zeta.
  destruct (iteration os name s) as [s' | s' | s'] eqn:Hit; cbn [state_of].
  2, 3: left;
    pose proof (iteration_stops_stamp os name s) as Hl; rewrite Hit in Hl;
    by apply Hl.
  rewrite <- (getPID_resolve os name s).
  destruct (Z.eq_dec (getPID os name s).1 0) as [Hz | Hnz].
  { left. destruct (utf8.ValidString name) eqn:Hv.
    - rewrite iteration_not_found in Hit by done. simplify_eq.
      destruct (getPID_store os name s) as (_ & _ & _ & Hl). by unfold_store.
    - by rewrite iteration_panic in Hit by (done || by left). }
  destruct (due os (lastUpdate s !! name)) eqn:Hdue.
  2: { left. destruct (lastUpdate s !! name) as [t|] eqn:Ht; [| done].
       cbn [due] in Hdue. apply Z.leb_gt in Hdue.
       rewrite (iteration_fresh os name s t) in Hit by done. by simplify_eq. }
  destruct (NewProcess os (int32 (getPID os name s).1)) as [p | e] eqn:Hp.
  2: { assert (sampleFailure os (getPID os name s).1 = Some (LookupFailed e)) as Hf.
       { unfold sampleFailure. by rewrite Hp. }
       by rewrite (iteration_failure os name s _ Hnz Hdue Hf) in Hit. }
  destruct (CPUPercent os p) as [c | e] eqn:Hc.
  2: { assert (sampleFailure os (getPID os name s).1 = Some (CpuFailed e)) as Hf.
       { unfold sampleFailure. by rewrite Hp, Hc. }
       by rewrite (iteration_failure os name s _ Hnz Hdue Hf) in Hit. }
  destruct (utf8.ValidString name) eqn:Hv.
  2: { rewrite iteration_panic in Hit; [done | done |].
       right. split_and!; [done | done |]. by exists p, c. }
  destruct (MemoryPercent os p) as [m | e] eqn:Hm.
  - right. exists p, c, m.
    rewrite (iteration_success os name s p c m) in Hit by done. simplify_eq.
    unfold_store. by rewrite !lookup_insert_eq.
  - assert (sampleFailure os (getPID os name s).1 = Some (MemFailed c e)) as Hf.
    { unfold sampleFailure. by rewrite Hp, Hc, Hm. }
    by rewrite (iteration_failure os name s _ Hnz Hdue Hf) in Hit.
Qed.

(** ** Names that are not valid UTF-8 *)

(** A configured name that is not valid UTF-8 ends the pass, and with it
    the program, at the first gauge write for it: when it resolves to 0
    (the zeroing of the cpu gauge) or when it is due and the process lookup
    and the cpu read have succeeded (the write of the cpu gauge). No gauge
    and no timestamp is written, and the names after it are not reached. *)
Theorem invalid_name_panics_at_its_first_write os i name rest s :
  utf8.ValidString name = false ->
  resolve (os i) name = 0
  \/ (resolve (os i) name <> 0 /\
      due (os i) (lastUpdate s !! name) = true /\
      exists p c,
        NewProcess (os i) (int32 (resolve (os i) name)) = Ok p /\
        CPUPercent (os i) p = Ok c) ->
  exists s',
    updateLoop os i (name :: rest) s = Panic s' /\
    forall m, entryAt s' m = entryAt s m.
Proof.
  intros Hv Hwrite. rewrite <- !(getPID_resolve (os i) name s) in Hwrite.
  exists (getPID (os i) name s).2. split.
  - cbn [updateLoop]. by rewrite (iteration_panic (os i) name s Hv Hwrite).
  - intros m. apply getPID_entryAt.
Qed.

Lemma invalid_name_panics_at_its_first_write_witness :
  utf8.ValidString Edge.badName = false /\
  resolve (Edge.badRuns (sec 5)) Edge.badName = 9 /\
  exists s',
    updateLoop (fun _ => Edge.badRuns (sec 5)) 0 [Edge.badName; "a"%string] init
      = Panic s' /\
    entryAt s' Edge.badName = noEntry.
Proof.
  split; [reflexivity|]. split; [reflexivity|].
  destruct (invalid_name_panics_at_its_first_write
              (fun _ => Edge.badRuns (sec 5)) 0 Edge.badName ["a"%string] init)
    as (s' & Hloop & Hfr).
  - reflexivity.
  - right. split; [by vm_compute|]. split; [reflexivity|].
    exists (handle 9), (pct 12). by split.
  - exists s'. split; [exact Hloop|]. by rewrite Hfr.
Defined.
